(** * neutron/agent/resource_cache.py: the remote resource cache

    A shallow embedding of [RemoteResourceCache] and of the dispatch loop of
    [RemoteResourceWatcher], followed by the properties of the cache:
    staleness, tombstones, changed-field diffing, lookups and failures. *)

From Stdlib Require Import ZArith String List Lia.
From stdpp Require Import gmap strings list fin_maps fin_sets.

Local Open Scope string_scope.
Local Open Scope Z_scope.

(** ** Data model *)

(** Field values of a versioned object, as [to_dict] exposes them. *)
Inductive value : Type :=
  | VNone
  | VInt (n : Z)
  | VStr (s : string).

#[global] Instance value_eq_dec : EqDecision value.
Proof. solve_decision. Defined.

(** An OVO resource.  [id] and [revision_number] are the attributes the
    cache reads directly; [updated_at] is the other standard attribute the
    diff ignores; [extra] holds the type-specific fields. *)
Record Resource : Type := mkResource {
  id : string;
  revision_number : Z;
  updated_at : value;
  extra : gmap string value
}.

(** [resource.to_dict()]: every field of the object by name.  The three
    standard attributes shadow a type-specific field of the same name. *)
Definition to_dict (r : Resource) : gmap string value :=
  <["id" := VStr (id r)]>
    (<["revision_number" := VInt (revision_number r)]>
      (<["updated_at" := updated_at r]> (extra r))).

(** The request context is opaque to the cache: it is only handed on. *)
Definition Context : Type := string.

Definition get_admin_context : Context := "admin".

(** What [registry.notify] is called with: the resource type, the event
    ([events.AFTER_UPDATE] or [events.AFTER_DELETE]) and its keywords. *)
Inductive Notification : Type :=
  | AFTER_UPDATE (rtype : string) (context : Context)
      (changed_fields : gset string) (existing : option Resource)
      (updated : Resource) (resource_id : string)
  | AFTER_DELETE (rtype : string) (context : Context)
      (existing : option Resource) (resource_id : string).

(** The exceptions the cache can raise. *)
Inductive exn : Type :=
  | RuntimeError (msg : string)
  | KeyError (key : string)
  | AttributeError (name : string).

Inductive outcome (A : Type) : Type :=
  | Returns (a : A)
  | Raises (e : exn).
Arguments Returns {A} a.
Arguments Raises {A} e.

(** The attributes set by [__init__]. *)
Record Cache : Type := mkCache {
  resource_types : list string;
  _cache_by_type_and_id : gmap string (gmap string Resource);
  _deleted_ids_by_type : gmap string (gset string)
}.

(** ** Effects

    A method runs on the cache object, may mutate it, may call
    [registry.notify], and either returns or raises.  Mutations made before
    an exception stay in place. *)
Definition M (A : Type) : Type := Cache → outcome A * Cache * list Notification.

Definition ret {A} (a : A) : M A := λ c, (Returns a, c, []).

Definition raise {A} (e : exn) : M A := λ c, (Raises e, c, []).

Definition bind {A B} (m : M A) (f : A → M B) : M B := λ c,
  match m c with
  | (Returns a, c1, out1) =>
      match f a c1 with
      | (r, c2, out2) => (r, c2, (out1 ++ out2)%list)
      end
  | (Raises e, c1, out1) => (Raises e, c1, out1)
  end.

Notation "'do' x <- m ; k" := (bind m (λ x, k))
  (at level 10, x name, m at level 100, k at level 200).
Notation "'run' m ; k" := (bind m (λ _, k))
  (at level 10, m at level 100, k at level 200).

Definition get_self : M Cache := λ c, (Returns c, c, []).

Definition modify (f : Cache → Cache) : M unit := λ c, (Returns tt, f c, []).

Definition notify (n : Notification) : M unit := λ c, (Returns tt, c, [n]).

Definition lift {A} (o : outcome A) : M A := λ c, (o, c, []).

(** [for x in l: body(x)] *)
Fixpoint for_each {A} (l : list A) (body : A → M unit) : M unit :=
  match l with
  | [] => ret tt
  | x :: l' => run body x ; for_each l' body
  end.

(** Projections of a finished call. *)
Definition result_of {A} (x : outcome A * Cache * list Notification) : outcome A := x.1.1.
Definition state_of {A} (x : outcome A * Cache * list Notification) : Cache := x.1.2.
Definition emitted {A} (x : outcome A * Cache * list Notification) : list Notification := x.2.

(** ** RemoteResourceCache *)

Definition __init__ (resource_types : list string) : Cache :=
  {| resource_types := resource_types;
     _cache_by_type_and_id :=
       foldl (λ d rt, <[rt := ∅]> d) ∅ resource_types;
     _deleted_ids_by_type :=
       foldl (λ d rt, <[rt := ∅]> d) ∅ resource_types |}.

(** [d[key]] on the two per-type dicts; a missing key raises [KeyError]. *)
Definition getitem {V} (d : gmap string V) (key : string) : M V :=
  match d !! key with
  | Some v => ret v
  | None => raise (KeyError key)
  end.

Definition _type_cache (rtype : string) : M (gmap string Resource) :=
  do self <- get_self ;
  if decide (rtype ∉ resource_types self)
  then raise (RuntimeError ("Resource cache not tracking " +:+ rtype))
  else getitem (_cache_by_type_and_id self) rtype.

(** The dict [_type_cache] returns is the one the cache holds, so a store
    or a [pop] through it is a mutation of the cache itself. *)
Definition set_type_cache (rtype : string) (d : gmap string Resource) : M unit :=
  modify (λ self,
    {| resource_types := resource_types self;
       _cache_by_type_and_id := <[rtype := d]> (_cache_by_type_and_id self);
       _deleted_ids_by_type := _deleted_ids_by_type self |}).

Definition set_deleted_ids (rtype : string) (s : gset string) : M unit :=
  modify (λ self,
    {| resource_types := resource_types self;
       _cache_by_type_and_id := _cache_by_type_and_id self;
       _deleted_ids_by_type := <[rtype := s]> (_deleted_ids_by_type self) |}).

(** [self._type_cache(rtype)[key] = resource] *)
Definition type_cache_setitem (rtype key : string) (resource : Resource) : M unit :=
  do d <- _type_cache rtype ;
  set_type_cache rtype (<[key := resource]> d).

(** [self._type_cache(rtype).pop(key, None)] *)
Definition type_cache_pop (rtype key : string) : M (option Resource) :=
  do d <- _type_cache rtype ;
  run set_type_cache rtype (delete key d) ;
  ret (d !! key).

(** [bulk_flood_cache].  [puller.bulk_pull(context, rtype)] is a remote
    call: it answers with a finite sequence of resources or raises, and
    what it raises leaves [bulk_flood_cache] with the types loaded so far
    in place. *)
Definition bulk_flood_cache_from
    (bulk_pull : Context → string → outcome (list Resource)) : M unit :=
  let context := get_admin_context in
  do self <- get_self ;
  for_each (resource_types self) (λ rtype,
    do pulled <- lift (bulk_pull context rtype) ;
    for_each pulled (λ resource,
      type_cache_setitem rtype (id resource) resource)).

(** The bulk load when every pull answers; [bulk_pull] gives the answers. *)
Definition bulk_flood_cache (bulk_pull : Context → string → list Resource) : M unit :=
  bulk_flood_cache_from (λ context rtype, Returns (bulk_pull context rtype)).

Definition get_resource_by_id (rtype obj_id : string) : M (option Resource) :=
  do d <- _type_cache rtype ;
  ret (d !! obj_id).

(** The list comprehension of [match_resources_with_func]; the matcher is
    a Python callable and may raise. *)
Fixpoint comprehension (matcher : Resource → outcome bool) (l : list Resource)
  : outcome (list Resource) :=
  match l with
  | [] => Returns []
  | r :: l' =>
      match matcher r with
      | Raises e => Raises e
      | Returns b =>
          match comprehension matcher l' with
          | Raises e => Raises e
          | Returns rs => Returns (if b then r :: rs else rs)
          end
      end
  end.

Definition match_resources_with_func (rtype : string)
    (matcher : Resource → outcome bool) : M (list Resource) :=
  do d <- _type_cache rtype ;
  lift (comprehension matcher (map snd (map_to_list d))).

(** What [getattr] finds under a name: the value of a field, or something
    that is not a field value, such as the bound methods [to_dict] and
    [get] or a class attribute. *)
Inductive attribute : Type :=
  | FieldValue (v : value)
  | NotAField (name : string).

#[global] Instance attribute_eq_dec : EqDecision attribute.
Proof. solve_decision. Defined.

(** [getattr(o, k)].  The fields of the object are those of [to_dict].
    The class of the resource is declared outside this file, so the names
    of its methods and class attributes are the parameter [class_attrs];
    any other name raises [AttributeError]. *)
Definition getattr (class_attrs : gset string) (o : Resource) (k : string)
  : outcome attribute :=
  match to_dict o !! k with
  | Some v => Returns (FieldValue v)
  | None =>
      if decide (k ∈ class_attrs) then Returns (NotAField k)
      else Raises (AttributeError k)
  end.

(** [all(v == getattr(o, k) for k, v in filters.items())]: stops at the
    first pair that differs.  A filter value is data and equals no method
    or class attribute. *)
Fixpoint all_match (class_attrs : gset string) (o : Resource)
    (filters : list (string * value)) : outcome bool :=
  match filters with
  | [] => Returns true
  | (k, v) :: rest =>
      match getattr class_attrs o k with
      | Raises e => Raises e
      | Returns w =>
          if decide (FieldValue v = w) then all_match class_attrs o rest
          else Returns false
      end
  end.

Definition get_resources (class_attrs : gset string) (rtype : string)
    (filters : list (string * value)) : M (list Resource) :=
  let match_ := λ o, all_match class_attrs o filters in
  match_resources_with_func rtype match_.

(** [existing] is [None] or a versioned object, and an object is truthy:
    [if existing and ...] asks whether the id is live. *)
Definition _is_stale (rtype : string) (resource : Resource) : M bool :=
  do self <- get_self ;
  do deleted <- getitem (_deleted_ids_by_type self) rtype ;
  if decide (id resource ∈ deleted) then ret true else
  do d <- _type_cache rtype ;
  let existing := d !! id resource in
  match existing with
  | Some existing =>
      if revision_number existing >? revision_number resource
      then ret true else ret false
  | None => ret false
  end.

(** [_get_changed_fields(old, new)]: [new.get(k)] is [None] for a key
    the incoming resource does not have. *)
Definition _get_changed_fields (old : option Resource) (new : Resource) : gset string :=
  let new := to_dict new in
  let changed : gset string := dom new in
  let changed :=
    match old with
    | Some old =>
        foldl (λ (changed : gset string) '(k, v),
                 if decide (v = default VNone (new !! k))
                 then changed ∖ {[k]} else changed)
              changed (map_to_list (to_dict old))
    | None => changed
    end in
  foldl (λ (changed : gset string) ignore, changed ∖ {[ignore]})
        changed ["revision_number"; "updated_at"].

Definition record_resource_update (context : Context) (rtype : string)
    (resource : Resource) : M unit :=
  do stale <- _is_stale rtype resource ;
  if stale then ret tt else
  do d <- _type_cache rtype ;
  let existing := d !! id resource in
  run type_cache_setitem rtype (id resource) resource ;
  let changed_fields := _get_changed_fields existing resource in
  if decide (changed_fields = ∅) then ret tt else
  notify (AFTER_UPDATE rtype context changed_fields existing resource (id resource)).

Definition record_resource_delete (context : Context) (rtype resource_id : string)
  : M unit :=
  do self <- get_self ;
  do deleted <- getitem (_deleted_ids_by_type self) rtype ;
  run set_deleted_ids rtype ({[resource_id]} ∪ deleted) ;
  do existing <- type_cache_pop rtype resource_id ;
  notify (AFTER_DELETE rtype context existing resource_id).

(** ** RemoteResourceWatcher *)

Inductive event_type : Type := CREATED | UPDATED | DELETED.

Definition resource_change_handler (context : Context) (rtype : string)
    (resources : list Resource) (ev : event_type) : M unit :=
  for_each resources (λ r,
    match ev with
    | DELETED => record_resource_delete context rtype (id r)
    | _ => record_resource_update context rtype r
    end).

(** ** Observations of the cache state

    The live mapping and the tombstone set of a type, as a reader sees them. *)
Definition live (c : Cache) (rtype : string) : gmap string Resource :=
  default ∅ (_cache_by_type_and_id c !! rtype).

Definition tombstones (c : Cache) (rtype : string) : gset string :=
  default ∅ (_deleted_ids_by_type c !! rtype).

(** The two per-type dicts are keyed by exactly the tracked types, as
    [__init__] builds them. *)
Definition wf (c : Cache) : Prop :=
  dom (_cache_by_type_and_id c) = list_to_set (resource_types c) ∧
  dom (_deleted_ids_by_type c) = list_to_set (resource_types c).

(** The staleness rule: tombstoned, or a live copy with a strictly higher
    revision number. *)
Definition stale_in (c : Cache) (rtype : string) (resource : Resource) : bool :=
  bool_decide (id resource ∈ tombstones c rtype) ||
  match live c rtype !! id resource with
  | Some existing => revision_number existing >? revision_number resource
  | None => false
  end.

(** The cache after the live mapping (the tombstone set) of one type has
    been replaced. *)
Definition with_live (c : Cache) (rtype : string) (d : gmap string Resource) : Cache :=
  {| resource_types := resource_types c;
     _cache_by_type_and_id := <[rtype := d]> (_cache_by_type_and_id c);
     _deleted_ids_by_type := _deleted_ids_by_type c |}.

Definition with_tombstones (c : Cache) (rtype : string) (s : gset string) : Cache :=
  {| resource_types := resource_types c;
     _cache_by_type_and_id := _cache_by_type_and_id c;
     _deleted_ids_by_type := <[rtype := s]> (_deleted_ids_by_type c) |}.

(** What an accepted update hands to [registry.notify]. *)
Definition update_events (context : Context) (rtype : string)
    (existing : option Resource) (resource : Resource) : list Notification :=
  if decide (_get_changed_fields existing resource = ∅) then []
  else [AFTER_UPDATE rtype context (_get_changed_fields existing resource)
          existing resource (id resource)].

(** ** Sequences of calls

    The calls that reach the cache: the watcher's updates and deletes, and
    the bulk load.  A caller that catches an exception goes on with the
    cache as the failed call left it. *)
Inductive op : Type :=
  | Update (context : Context) (rtype : string) (resource : Resource)
  | Delete (context : Context) (rtype : string) (resource_id : string)
  | BulkFlood (bulk_pull : Context → string → list Resource).

Definition exec (o : op) : M unit :=
  match o with
  | Update context rtype resource => record_resource_update context rtype resource
  | Delete context rtype resource_id => record_resource_delete context rtype resource_id
  | BulkFlood bulk_pull => bulk_flood_cache bulk_pull
  end.

Fixpoint run_ops (ops : list op) (c : Cache) : Cache :=
  match ops with
  | [] => c
  | o :: ops' => run_ops ops' (state_of (exec o c))
  end.

(** The calls the push listener makes. *)
Definition is_push (o : op) : Prop :=
  match o with
  | BulkFlood _ => False
  | _ => True
  end.

(** The calls that carry a create or an update. *)
Definition is_update (o : op) : Prop :=
  match o with
  | Update _ _ _ => True
  | _ => False
  end.

(** The revision number stored for an id, when it is live. *)
Definition stored_revision (c : Cache) (rtype rid : string) : option Z :=
  revision_number <$> live c rtype !! rid.

(** An id that is tombstoned and not live. *)
Definition buried (c : Cache) (rtype rid : string) : Prop :=
  rid ∈ tombstones c rtype ∧ live c rtype !! rid = None.

(** Two resources agree on every field but [revision_number] and
    [updated_at]. *)
Definition same_but_revision (old new : Resource) : Prop :=
  ∀ k, k ≠ "revision_number" → k ≠ "updated_at" →
       to_dict old !! k = to_dict new !! k.


(** The entries of a live mapping whose resource satisfies [p]. *)
Definition selected (p : Resource → bool) (d : gmap string Resource)
  : gmap string Resource :=
  filter (λ kv, p kv.2 = true) d.

(** No tombstoned id is live. *)
Definition disjoint_inv (c : Cache) : Prop :=
  ∀ rtype rid, rid ∈ tombstones c rtype → live c rtype !! rid = None.

(** The states the cache can be in: built by the constructor, then changed
    by its own calls. *)
Inductive reachable : Cache → Prop :=
  | reach_init rts : reachable (__init__ rts)
  | reach_step c o : reachable c → reachable (state_of (exec o c)).

(** [for resource in pulled: d[resource.id] = resource] on one dict. *)
Definition flood (d : gmap string Resource) (pulled : list Resource)
  : gmap string Resource :=
  foldl (λ d resource, <[id resource := resource]> d) d pulled.

(** ** Sample resources *)

(** A sample resource with two type-specific fields. *)
Definition port (rid : string) (rev : Z) (status : string) : Resource :=
  {| id := rid; revision_number := rev; updated_at := VInt rev;
     extra := {[ "name" := VStr "x"; "status" := VStr status ]} |}.

(** A sample resource with a [zone] field. *)
Definition zone (rid z : string) : Resource :=
  {| id := rid; revision_number := 1; updated_at := VNone;
     extra := {[ "zone" := VStr z ]} |}.

(** ** The watcher's batches as sequences of calls *)

Definition handler_ops (context : Context) (rtype : string)
    (resources : list Resource) (ev : event_type) : list op :=
  map (λ r, match ev with
            | DELETED => Delete context rtype (id r)
            | _ => Update context rtype r
            end) resources.

(** Every live entry is stored under its own id. *)
Definition keyed_by_id (c : Cache) : Prop :=
  ∀ rtype k r, live c rtype !! k = Some r → id r = k.

(** A sample resource whose type-specific fields are given. *)
Definition thing (rid : string) (rev : Z) (fields : gmap string value) : Resource :=
  {| id := rid; revision_number := rev; updated_at := VInt rev; extra := fields |}.

(** What a sequence of calls hands to [registry.notify], in order. *)
Fixpoint emitted_ops (ops : list op) (c : Cache) : list Notification :=
  match ops with
  | [] => []
  | o :: ops' => emitted (exec o c) ++ emitted_ops ops' (state_of (exec o c))
  end.

(** The [resource_id] a notification carries. *)
Definition notified_id (n : Notification) : string :=
  match n with
  | AFTER_UPDATE _ _ _ _ _ resource_id => resource_id
  | AFTER_DELETE _ _ _ resource_id => resource_id
  end.

(** The last resource of a pull answer that carries a given id. *)
Definition last_pulled (rid : string) (pulled : list Resource) : option Resource :=
  last (filter (λ r, id r = rid) pulled).

(** * Properties *)

(** ** Well-formed caches and the equations of the methods *)

Lemma wf_tracked c rtype :
  wf c → rtype ∈ resource_types c →
  _cache_by_type_and_id c !! rtype = Some (live c rtype) ∧
  _deleted_ids_by_type c !! rtype = Some (tombstones c rtype).
Proof.
  intros [Hc Hd] Hin. unfold live, tombstones.
  assert (H1 : rtype ∈ dom (_cache_by_type_and_id c)) by (rewrite Hc; set_solver).
  assert (H2 : rtype ∈ dom (_deleted_ids_by_type c)) by (rewrite Hd; set_solver).
  apply elem_of_dom in H1 as [d ->]. apply elem_of_dom in H2 as [s ->]. done.
Qed.

Lemma wf_untracked c rtype :
  wf c → rtype ∉ resource_types c →
  _cache_by_type_and_id c !! rtype = None ∧
  _deleted_ids_by_type c !! rtype = None.
Proof.
  intros [Hc Hd] Hin. split; apply not_elem_of_dom.
  - rewrite Hc. set_solver.
  - rewrite Hd. set_solver.
Qed.

Lemma init_dicts (rts : list string) {V} (e : V) (d0 : gmap string V) :
  dom (foldl (λ d rt, <[rt := e]> d) d0 rts) = dom d0 ∪ list_to_set rts.
Proof.
  revert d0. induction rts as [|rt rts IH]; intros d0; simpl.
  - set_solver.
  - rewrite IH, dom_insert_L. set_solver.
Qed.

Lemma wf_init rts : wf (__init__ rts).
Proof.
  split; simpl; rewrite init_dicts, dom_empty_L; set_solver.
Qed.

Lemma _type_cache_tracked c rtype :
  wf c → rtype ∈ resource_types c →
  _type_cache rtype c = (Returns (live c rtype), c, []).
Proof.
  intros Hwf Hin. destruct (wf_tracked c rtype Hwf Hin) as [Hc _].
  unfold _type_cache, bind, get_self, getitem. simpl.
  destruct (decide (rtype ∉ resource_types c)) as [Hn|_]; [done|].
  by rewrite Hc.
Qed.

Lemma _type_cache_untracked c rtype :
  rtype ∉ resource_types c →
  _type_cache rtype c =
    (Raises (RuntimeError ("Resource cache not tracking " +:+ rtype)), c, []).
Proof.
  intros Hn. unfold _type_cache, bind, get_self. simpl.
  by destruct (decide (rtype ∉ resource_types c)).
Qed.

Lemma _is_stale_tracked c rtype resource :
  wf c → rtype ∈ resource_types c →
  _is_stale rtype resource c = (Returns (stale_in c rtype resource), c, []).
Proof.
  intros Hwf Hin. destruct (wf_tracked c rtype Hwf Hin) as [_ Hd].
  unfold _is_stale, stale_in, bind at 1, get_self. simpl.
  unfold bind at 1, getitem. rewrite Hd. simpl.
  destruct (decide (id resource ∈ tombstones c rtype)) as [Ht|Ht].
  - by rewrite bool_decide_eq_true_2.
  - rewrite bool_decide_eq_false_2 by done. simpl.
    unfold bind. rewrite _type_cache_tracked by done.
    destruct (live c rtype !! id resource) as [e|]; [|done].
    by destruct (revision_number e >? revision_number resource).
Qed.

Lemma type_cache_setitem_tracked c rtype key resource :
  wf c → rtype ∈ resource_types c →
  type_cache_setitem rtype key resource c =
    (Returns tt, with_live c rtype (<[key := resource]> (live c rtype)), []).
Proof.
  intros Hwf Hin. unfold type_cache_setitem, bind.
  by rewrite _type_cache_tracked.
Qed.

Lemma record_resource_update_tracked c context rtype resource :
  wf c → rtype ∈ resource_types c →
  record_resource_update context rtype resource c =
    if stale_in c rtype resource then (Returns tt, c, [])
    else (Returns tt,
          with_live c rtype (<[id resource := resource]> (live c rtype)),
          update_events context rtype (live c rtype !! id resource) resource).
Proof.
  intros Hwf Hin. unfold record_resource_update, bind at 1.
  rewrite _is_stale_tracked by done.
  destruct (stale_in c rtype resource); [done|].
  unfold bind at 1. rewrite _type_cache_tracked by done.
  unfold bind. rewrite type_cache_setitem_tracked by done.
  unfold update_events.
  by destruct (decide (_get_changed_fields _ resource = ∅)).
Qed.

Lemma record_resource_update_untracked c context rtype resource :
  wf c → rtype ∉ resource_types c →
  record_resource_update context rtype resource c = (Raises (KeyError rtype), c, []).
Proof.
  intros Hwf Hn. destruct (wf_untracked c rtype Hwf Hn) as [_ Hd].
  unfold record_resource_update, _is_stale, bind, get_self, getitem. simpl.
  by rewrite Hd.
Qed.

Lemma record_resource_delete_tracked c context rtype rid :
  wf c → rtype ∈ resource_types c →
  record_resource_delete context rtype rid c =
    (Returns tt,
     with_live (with_tombstones c rtype ({[rid]} ∪ tombstones c rtype))
       rtype (delete rid (live c rtype)),
     [AFTER_DELETE rtype context (live c rtype !! rid) rid]).
Proof.
  intros Hwf Hin. destruct (wf_tracked c rtype Hwf Hin) as [Hc Hd].
  unfold record_resource_delete, type_cache_pop, _type_cache, bind, get_self, getitem.
  simpl. rewrite Hd. simpl.
  destruct (decide (rtype ∉ resource_types c)) as [|_]; [done|].
  rewrite Hc. simpl. done.
Qed.

Lemma record_resource_delete_untracked c context rtype rid :
  wf c → rtype ∉ resource_types c →
  record_resource_delete context rtype rid c = (Raises (KeyError rtype), c, []).
Proof.
  intros Hwf Hn. destruct (wf_untracked c rtype Hwf Hn) as [_ Hd].
  unfold record_resource_delete, bind, get_self, getitem. simpl.
  by rewrite Hd.
Qed.

Ltac finished := unfold state_of, result_of, emitted; cbn [fst snd].

Lemma live_with_live c rt d rt' :
  live (with_live c rt d) rt' = if decide (rt = rt') then d else live c rt'.
Proof.
  unfold live, with_live. simpl. rewrite lookup_insert.
  by destruct (decide (rt = rt')).
Qed.

Lemma tombstones_with_live c rt d rt' :
  tombstones (with_live c rt d) rt' = tombstones c rt'.
Proof. done. Qed.

Lemma live_with_tombstones c rt s rt' :
  live (with_tombstones c rt s) rt' = live c rt'.
Proof. done. Qed.

Lemma tombstones_with_tombstones c rt s rt' :
  tombstones (with_tombstones c rt s) rt' =
    if decide (rt = rt') then s else tombstones c rt'.
Proof.
  unfold tombstones, with_tombstones. simpl. rewrite lookup_insert.
  by destruct (decide (rt = rt')).
Qed.

Lemma wf_with_live c rt d :
  wf c → rt ∈ resource_types c → wf (with_live c rt d).
Proof.
  intros [Hc Hd] Hin. split; simpl; [|done].
  rewrite dom_insert_L, Hc. set_solver.
Qed.

Lemma wf_with_tombstones c rt s :
  wf c → rt ∈ resource_types c → wf (with_tombstones c rt s).
Proof.
  intros [Hc Hd] Hin. split; simpl; [done|].
  rewrite dom_insert_L, Hd. set_solver.
Qed.

Lemma tracked_dec c rtype : rtype ∈ resource_types c ∨ rtype ∉ resource_types c.
Proof. destruct (decide (rtype ∈ resource_types c)); auto. Qed.

Lemma update_preserves c context rtype resource :
  wf c →
  wf (state_of (record_resource_update context rtype resource c)) ∧
  resource_types (state_of (record_resource_update context rtype resource c))
    = resource_types c.
Proof.
  intros Hwf. destruct (tracked_dec c rtype) as [Hin|Hn].
  - rewrite record_resource_update_tracked by done.
    destruct (stale_in c rtype resource); finished; [done|].
    split; [by apply wf_with_live|done].
  - by rewrite record_resource_update_untracked.
Qed.

Lemma delete_preserves c context rtype rid :
  wf c →
  wf (state_of (record_resource_delete context rtype rid c)) ∧
  resource_types (state_of (record_resource_delete context rtype rid c))
    = resource_types c.
Proof.
  intros Hwf. destruct (tracked_dec c rtype) as [Hin|Hn].
  - rewrite record_resource_delete_tracked by done. finished.
    split; [|done]. apply wf_with_live; [by apply wf_with_tombstones|done].
  - by rewrite record_resource_delete_untracked.
Qed.

Lemma update_keeps_buried c context rt resource rtype rid :
  wf c → buried c rtype rid →
  buried (state_of (record_resource_update context rt resource c)) rtype rid.
Proof.
  intros Hwf [Ht Hl]. destruct (tracked_dec c rt) as [Hin|Hn].
  - rewrite record_resource_update_tracked by done.
    destruct (stale_in c rt resource) eqn:Hs; finished; [done|].
    split; [done|]. rewrite live_with_live.
    destruct (decide (rt = rtype)) as [->|]; [|done].
    apply orb_false_iff in Hs as [Hs _].
    apply bool_decide_eq_false in Hs.
    rewrite lookup_insert_ne; [done|]. intros Heq. apply Hs. by rewrite Heq.
  - by rewrite record_resource_update_untracked.
Qed.

Lemma delete_keeps_buried c context rt rid' rtype rid :
  wf c → buried c rtype rid →
  buried (state_of (record_resource_delete context rt rid' c)) rtype rid.
Proof.
  intros Hwf [Ht Hl]. destruct (tracked_dec c rt) as [Hin|Hn].
  - rewrite record_resource_delete_tracked by done. finished.
    split.
    + rewrite tombstones_with_live, tombstones_with_tombstones.
      destruct (decide (rt = rtype)) as [->|]; [set_solver|done].
    + rewrite live_with_live, live_with_tombstones.
      destruct (decide (rt = rtype)) as [->|]; [|done].
      rewrite lookup_delete. by destruct (decide (rid' = rid)).
  - by rewrite record_resource_delete_untracked.
Qed.

Lemma delete_buries c context rtype rid :
  wf c → rtype ∈ resource_types c →
  buried (state_of (record_resource_delete context rtype rid c)) rtype rid.
Proof.
  intros Hwf Hin. rewrite record_resource_delete_tracked by done. finished.
  split.
  - rewrite tombstones_with_live, tombstones_with_tombstones.
    rewrite decide_True by done. set_solver.
  - rewrite live_with_live, decide_True by done. apply lookup_delete_eq.
Qed.

Lemma push_ops_keep_buried ops c rtype rid :
  Forall is_push ops → wf c → rtype ∈ resource_types c → buried c rtype rid →
  wf (run_ops ops c) ∧ rtype ∈ resource_types (run_ops ops c) ∧
  buried (run_ops ops c) rtype rid.
Proof.
  intros Hops. revert c. induction Hops as [|o ops Ho _ IH]; intros c Hwf Hin Hb.
  - done.
  - destruct o as [ctx rt r|ctx rt rid'|bp]; [| |done]; cbn [run_ops exec].
    + destruct (update_preserves c ctx rt r Hwf) as [Hwf' Hty].
      apply IH; [done|by rewrite Hty|by apply update_keeps_buried].
    + destruct (delete_preserves c ctx rt rid' Hwf) as [Hwf' Hty].
      apply IH; [done|by rewrite Hty|by apply delete_keeps_buried].
Qed.

Lemma get_resource_by_id_tracked c rtype rid :
  wf c → rtype ∈ resource_types c →
  get_resource_by_id rtype rid c = (Returns (live c rtype !! rid), c, []).
Proof.
  intros Hwf Hin. unfold get_resource_by_id, bind.
  by rewrite _type_cache_tracked.
Qed.

(** ** Tombstones *)

(** C1 (tombstone finality): on a cache that tracks [rtype], once
    [record_resource_delete] has been called for [rid], no later sequence
    of [record_resource_update] and [record_resource_delete] calls, for any
    type, resource and revision number, makes [get_resource_by_id rtype rid]
    return anything but [None]. *)
Theorem tombstone_finality c context rtype rid ops :
  wf c → rtype ∈ resource_types c → Forall is_push ops →
  result_of (get_resource_by_id rtype rid
    (run_ops ops (state_of (record_resource_delete context rtype rid c))))
  = Returns None.
Proof.
  intros Hwf Hin Hops.
  destruct (delete_preserves c context rtype rid Hwf) as [Hwf' Hty].
  destruct (push_ops_keep_buried ops _ rtype rid Hops Hwf') as (Hwf2 & Hin2 & _ & Hl).
  - by rewrite Hty.
  - by apply delete_buries.
  - rewrite get_resource_by_id_tracked by done.
    unfold result_of; cbn [fst]. by rewrite Hl.
Qed.

Lemma tombstone_finality_witness :
  let c := state_of (record_resource_update "ctx" "port" (port "a" 2 "up")
                       (__init__ ["port"])) in
  let ops := [Update "ctx" "port" (port "a" 9 "up");
              Update "ctx" "port" (port "a" 1 "down")] in
  wf c ∧ "port" ∈ resource_types c ∧ Forall is_push ops ∧
  result_of (get_resource_by_id "port" "a"
    (run_ops ops (state_of (record_resource_delete "ctx" "port" "a" c))))
  = Returns None.
Proof.
  assert (Hwf : wf (state_of (record_resource_update "ctx" "port"
                      (port "a" 2 "up") (__init__ ["port"]))))
    by apply update_preserves, wf_init.
  assert (Hin : "port" ∈ resource_types (state_of (record_resource_update
                      "ctx" "port" (port "a" 2 "up") (__init__ ["port"]))))
    by (vm_compute; set_solver).
  assert (Hops : Forall is_push [Update "ctx" "port" (port "a" 9 "up");
                                 Update "ctx" "port" (port "a" 1 "down")])
    by repeat constructor.
  exact (conj Hwf (conj Hin (conj Hops
    (tombstone_finality _ "ctx" "port" "a" _ Hwf Hin Hops)))).
Defined.

(** ** Changed fields *)

Lemma discard_equal_spec (new : gmap string value) (l : list (string * value))
    (s : gset string) (k : string) :
  k ∈ foldl (λ (changed : gset string) '(k, v),
               if decide (v = default VNone (new !! k))
               then changed ∖ {[k]} else changed) s l
  ↔ k ∈ s ∧ ∀ v, (k, v) ∈ l → v ≠ default VNone (new !! k).
Proof.
  revert s. induction l as [|[k' v'] l IH]; intros s; simpl.
  - split; [intros H; split; [done|] | by intros [H _]].
    intros v Hv. by apply elem_of_nil in Hv.
  - rewrite IH. split.
    + intros [Hk Hl]. destruct (decide (v' = default VNone (new !! k'))) as [He|Hne].
      * apply elem_of_difference in Hk as [Hk Hkk'].
        split; [done|]. intros v Hv. apply elem_of_cons in Hv as [Heq|Hv]; [|by apply Hl].
        inversion Heq; subst. set_solver.
      * split; [done|]. intros v Hv. apply elem_of_cons in Hv as [Heq|Hv]; [|by apply Hl].
        by inversion Heq; subst.
    + intros [Hk Hl]. split.
      * destruct (decide (v' = default VNone (new !! k'))) as [He|Hne]; [|done].
        apply elem_of_difference. split; [done|].
        intros Hkk'. apply elem_of_singleton in Hkk'. subst k'.
        apply (Hl v'); [left|done].
      * intros v Hv. apply Hl. by right.
Qed.

Lemma changed_fields_spec (existing : option Resource) (new : Resource) (k : string) :
  k ∈ _get_changed_fields existing new ↔
    k ∈ dom (to_dict new) ∧ k ≠ "revision_number" ∧ k ≠ "updated_at" ∧
    ∀ old, existing = Some old → to_dict old !! k ≠ to_dict new !! k.
Proof.
  unfold _get_changed_fields. cbn [foldl].
  rewrite !elem_of_difference, !elem_of_singleton.
  destruct existing as [old|].
  - rewrite discard_equal_spec. split.
    + intros [[[Hd Hv] Hr] Hu]. repeat split; try done.
      intros old' [= <-] Heq. apply elem_of_dom in Hd as [w Hw].
      rewrite Hw in Heq. apply (Hv w); [by apply elem_of_map_to_list|].
      by rewrite Hw.
    + intros (Hd & Hr & Hu & Hv). repeat split; try done.
      intros v Hin%elem_of_map_to_list Heq. apply (Hv old); [done|].
      apply elem_of_dom in Hd as [w Hw]. rewrite Hw in Heq |- *. simpl in Heq.
      by rewrite Hin, Heq.
  - split.
    + intros [[Hd Hr] Hu]. by repeat split.
    + intros (Hd & Hr & Hu & _). by repeat split.
Qed.

Lemma changed_fields_same (old new : Resource) :
  (∀ k, k ≠ "revision_number" → k ≠ "updated_at" →
        to_dict old !! k = to_dict new !! k) →
  _get_changed_fields (Some old) new = ∅.
Proof.
  intros Hsame. apply set_eq. intros k. rewrite changed_fields_spec. split.
  - intros (_ & Hr & Hu & Hv). exfalso. apply (Hv old); [done|]. by apply Hsame.
  - intros H. by apply not_elem_of_empty in H.
Qed.

Lemma changed_fields_create (new : Resource) :
  "id" ∈ _get_changed_fields None new.
Proof.
  apply changed_fields_spec. repeat split; try done.
  apply elem_of_dom. unfold to_dict. rewrite lookup_insert_eq. eauto.
Qed.

(** C4, as stated, fails: a field that the live entry has and the
    accepted incoming resource no longer has differs between the two, and
    is not in the set. *)
Lemma changed_fields_misses_dropped_field :
  let existing := thing "a" 1 {[ "name" := VStr "x"; "status" := VStr "up" ]} in
  let incoming := thing "a" 2 {[ "name" := VStr "x" ]} in
  let c := state_of (record_resource_update "ctx" "port" existing
                       (__init__ ["port"])) in
  live c "port" !! "a" = Some existing ∧
  result_of (_is_stale "port" incoming c) = Returns false ∧
  ¬ (∀ k, k ∈ _get_changed_fields (Some existing) incoming ↔
          k ≠ "revision_number" ∧ k ≠ "updated_at" ∧
          to_dict existing !! k ≠ to_dict incoming !! k).
Proof.
  cbv zeta. split; [vm_compute; reflexivity|]. split; [vm_compute; reflexivity|].
  intros H. destruct (H "status") as [_ Hin].
  assert (Hs : "status" ∈ _get_changed_fields
            (Some (thing "a" 1 {[ "name" := VStr "x"; "status" := VStr "up" ]}))
            (thing "a" 2 {[ "name" := VStr "x" ]})).
  { apply Hin. split_and!; [done|done|]. vm_compute. discriminate. }
  apply changed_fields_spec in Hs as [Hd _].
  apply elem_of_dom in Hd as [v Hv]. vm_compute in Hv. discriminate.
Qed.

(** C4, amended (changed-field computation): the set
    [_get_changed_fields] returns holds exactly the fields of the incoming
    resource, other than [revision_number] and [updated_at], whose value
    differs from the existing entry's or that the existing entry lacks (all
    of them when there is no existing entry); a field that only the
    existing entry has is never in it; when both resources have the same
    fields it is exactly the fields whose values differ; an accepted update
    with a non-empty set hands that set to the notification; and for
    existing {id a, revision 1, name x, status up} and incoming {id a,
    revision 2, name x, status down} the set emitted is {status}. *)
Theorem changed_fields_correct :
  (∀ existing new k,
     k ∈ _get_changed_fields existing new ↔
       k ∈ dom (to_dict new) ∧ k ≠ "revision_number" ∧ k ≠ "updated_at" ∧
       ∀ old, existing = Some old → to_dict old !! k ≠ to_dict new !! k) ∧
  (∀ old new k,
     dom (to_dict old) = dom (to_dict new) →
     k ∈ _get_changed_fields (Some old) new ↔
       k ≠ "revision_number" ∧ k ≠ "updated_at" ∧
       to_dict old !! k ≠ to_dict new !! k) ∧
  (∀ c context rtype new,
     wf c → rtype ∈ resource_types c → stale_in c rtype new = false →
     _get_changed_fields (live c rtype !! id new) new ≠ ∅ →
     emitted (record_resource_update context rtype new c) =
       [AFTER_UPDATE rtype context
          (_get_changed_fields (live c rtype !! id new) new)
          (live c rtype !! id new) new (id new)]) ∧
  (let old := port "a" 1 "up" in
   let new := port "a" 2 "down" in
   let c := state_of (record_resource_update "ctx" "port" old (__init__ ["port"])) in
   _get_changed_fields (Some old) new = {["status"]} ∧
   emitted (record_resource_update "ctx" "port" new c) =
     [AFTER_UPDATE "port" "ctx" {["status"]} (Some old) new "a"]) ∧
  (∀ existing new k,
     k ∉ dom (to_dict new) → k ∉ _get_changed_fields existing new).
Proof.
  split; [exact changed_fields_spec|]. split; [|split; [|split]].
  - intros old new k Hdom. rewrite changed_fields_spec. split.
    + intros (_ & Hr & Hu & Hv). repeat split; try done. by apply Hv.
    + intros (Hr & Hu & Hv). repeat split; try done.
      * destruct (to_dict new !! k) as [w|] eqn:Hw; [apply elem_of_dom; eauto|].
        destruct (to_dict old !! k) as [w|] eqn:Ho; [|done].
        rewrite <- Hdom. apply elem_of_dom. eauto.
      * by intros old' [= <-].
  - intros c context rtype new Hwf Hin Hs Hne.
    rewrite record_resource_update_tracked by done. rewrite Hs.
    unfold emitted, update_events; cbn [snd].
    by destruct (decide (_get_changed_fields (live c rtype !! id new) new = ∅)).
  - vm_compute. split; reflexivity.
  - intros existing new k Hk H%changed_fields_spec. by destruct H as [? _].
Qed.

Lemma changed_fields_correct_witness :
  let old := port "a" 1 "up" in
  let new := port "a" 2 "down" in
  let c := state_of (record_resource_update "ctx" "port" old (__init__ ["port"])) in
  emitted (record_resource_update "ctx" "port" new c) =
    [AFTER_UPDATE "port" "ctx"
       (_get_changed_fields (live c "port" !! id new) new)
       (live c "port" !! id new) new (id new)].
Proof.
  apply (proj1 (proj2 (proj2 changed_fields_correct))).
  - apply update_preserves, wf_init.
  - vm_compute. set_solver.
  - vm_compute. reflexivity.
  - vm_compute. discriminate.
Defined.

(** ** Staleness and revisions *)

Lemma stale_in_true c rtype resource :
  stale_in c rtype resource = true ↔
    id resource ∈ tombstones c rtype ∨
    ∃ existing, live c rtype !! id resource = Some existing ∧
                revision_number resource < revision_number existing.
Proof.
  unfold stale_in. rewrite orb_true_iff, bool_decide_eq_true.
  destruct (live c rtype !! id resource) as [e|].
  - rewrite Z.gtb_lt. split; (intros [H|H]; [by left|right]).
    + by exists e.
    + by destruct H as (e' & [= <-] & Hlt).
  - split; (intros [H|H]; [by left|]); [done|]. by destruct H as (? & ? & _).
Qed.

Lemma stale_in_false c rtype resource :
  stale_in c rtype resource = false ↔
    (id resource ∉ tombstones c rtype) ∧
    ∀ existing, live c rtype !! id resource = Some existing →
                (revision_number existing ≤ revision_number resource)%Z.
Proof.
  unfold stale_in. rewrite orb_false_iff, bool_decide_eq_false.
  destruct (live c rtype !! id resource) as [e|].
  - rewrite Z.gtb_ltb, Z.ltb_ge. split; (intros [H1 H2]; split; [done|]).
    + by intros e' [= <-].
    + by apply H2.
  - split; (intros [H1 H2]; split; done).
Qed.

Lemma _is_stale_reads c rtype resource :
  ∃ r, _is_stale rtype resource c = (r, c, []).
Proof.
  unfold _is_stale, _type_cache, bind, get_self, getitem, ret, raise.
  destruct (_deleted_ids_by_type c !! rtype) as [s|]; [|by eexists].
  destruct (decide (id resource ∈ s)); [by eexists|].
  destruct (decide (rtype ∉ resource_types c)); [by eexists|].
  destruct (_cache_by_type_and_id c !! rtype) as [d|]; [|by eexists].
  destruct (d !! id resource) as [e|]; [|by eexists].
  destruct (revision_number e >? revision_number resource); by eexists.
Qed.

Lemma update_revision c context rtype resource rtype' rid v :
  wf c → stored_revision c rtype' rid = Some v →
  ∃ v', stored_revision
          (state_of (record_resource_update context rtype resource c)) rtype' rid
        = Some v' ∧ v ≤ v'.
Proof.
  intros Hwf Hv. destruct (tracked_dec c rtype) as [Hin|Hn].
  - rewrite record_resource_update_tracked by done.
    destruct (stale_in c rtype resource) eqn:Hs; finished.
    + exists v. split; [done|lia].
    + unfold stored_revision in *. rewrite live_with_live.
      destruct (decide (rtype = rtype')) as [<-|]; [|exists v; split; [done|lia]].
      destruct (decide (id resource = rid)) as [<-|Hne].
      * rewrite lookup_insert_eq. exists (revision_number resource). split; [done|].
        apply stale_in_false in Hs as [_ Hs].
        destruct (live c rtype !! id resource) as [e|] eqn:He; [|done].
        injection Hv as <-. by apply Hs.
      * rewrite lookup_insert_ne by done. exists v. split; [done|lia].
  - rewrite record_resource_update_untracked by done. finished.
    exists v. split; [done|lia].
Qed.

(** C2 (revision monotonicity): on a cache built by the constructor and
    the cache's own calls, along any sequence of [record_resource_update]
    calls the revision number stored for a live id never decreases: the
    entry stays live and its revision after the calls is at least the one
    before.  A single call is the sequence of length one. *)
Theorem revision_monotonic ops c rtype rid v :
  wf c → Forall is_update ops →
  stored_revision c rtype rid = Some v →
  ∃ v', stored_revision (run_ops ops c) rtype rid = Some v' ∧ (v ≤ v')%Z.
Proof.
  intros Hwf Hops. revert c v Hwf.
  induction Hops as [|o ops Ho _ IH]; intros c v Hwf Hv.
  - exists v. split; [done|lia].
  - destruct o as [ctx rt r| |]; [|done|done]. cbn [run_ops exec].
    destruct (update_revision c ctx rt r rtype rid v Hwf Hv) as (v1 & Hv1 & Hle).
    destruct (IH _ v1 (proj1 (update_preserves c ctx rt r Hwf)) Hv1) as (v2 & Hv2 & Hle2).
    exists v2. split; [done|lia].
Qed.

Lemma revision_monotonic_witness :
  let c := state_of (record_resource_update "ctx" "port" (port "a" 5 "up")
                       (__init__ ["port"])) in
  let ops := [Update "ctx" "port" (port "a" 3 "down");
              Update "ctx" "port" (port "a" 7 "down")] in
  wf c ∧ Forall is_update ops ∧ stored_revision c "port" "a" = Some 5 ∧
  ∃ v', stored_revision (run_ops ops c) "port" "a" = Some v' ∧ 5 ≤ v'.
Proof.
  assert (Hwf : wf (state_of (record_resource_update "ctx" "port"
                      (port "a" 5 "up") (__init__ ["port"]))))
    by apply update_preserves, wf_init.
  assert (Hops : Forall is_update [Update "ctx" "port" (port "a" 3 "down");
                                   Update "ctx" "port" (port "a" 7 "down")])
    by repeat constructor.
  assert (Hv : stored_revision (state_of (record_resource_update "ctx" "port"
                      (port "a" 5 "up") (__init__ ["port"]))) "port" "a" = Some 5)
    by (vm_compute; reflexivity).
  exact (conj Hwf (conj Hops (conj Hv
    (revision_monotonic _ _ "port" "a" 5 Hwf Hops Hv)))).
Defined.

(** C10 (a stale update changes nothing): whenever [_is_stale] answers
    [True] for an incoming resource, [record_resource_update] returns with
    the whole cache, every live mapping and every tombstone set, exactly as
    it was and without calling [registry.notify]; on a cache that tracks the
    type this is the case when the id is tombstoned or a live copy has a
    strictly higher revision number. *)
Theorem stale_update_changes_nothing c context rtype resource :
  (result_of (_is_stale rtype resource c) = Returns true →
   record_resource_update context rtype resource c = (Returns tt, c, [])) ∧
  (wf c → rtype ∈ resource_types c →
   (id resource ∈ tombstones c rtype ∨
    ∃ existing, live c rtype !! id resource = Some existing ∧
                revision_number resource < revision_number existing) →
   record_resource_update context rtype resource c = (Returns tt, c, [])).
Proof.
  split.
  - intros Hs. destruct (_is_stale_reads c rtype resource) as [r Hr].
    rewrite Hr in Hs. unfold result_of in Hs; cbn [fst] in Hs. subst r.
    unfold record_resource_update, bind. by rewrite Hr.
  - intros Hwf Hin Hs%stale_in_true.
    rewrite record_resource_update_tracked by done. by rewrite Hs.
Qed.

Lemma stale_update_changes_nothing_witness :
  let c := state_of (record_resource_update "ctx" "port" (port "a" 5 "up")
                       (__init__ ["port"])) in
  result_of (_is_stale "port" (port "a" 3 "down") c) = Returns true ∧
  record_resource_update "ctx" "port" (port "a" 3 "down") c = (Returns tt, c, []).
Proof.
  assert (Hs : result_of (_is_stale "port" (port "a" 3 "down")
            (state_of (record_resource_update "ctx" "port" (port "a" 5 "up")
                         (__init__ ["port"])))) = Returns true)
    by (vm_compute; reflexivity).
  exact (conj Hs (proj1 (stale_update_changes_nothing _ "ctx" "port" _) Hs)).
Defined.

(** ** Deletion *)

Lemma delete_twice_state c rtype rid :
  let c1 := with_live (with_tombstones c rtype ({[rid]} ∪ tombstones c rtype))
              rtype (delete rid (live c rtype)) in
  with_live (with_tombstones c1 rtype ({[rid]} ∪ tombstones c1 rtype))
    rtype (delete rid (live c1 rtype)) = c1.
Proof.
  intros c1. unfold c1 at 1 2 3 4.
  rewrite tombstones_with_live, tombstones_with_tombstones, decide_True by done.
  rewrite live_with_live, decide_True by done.
  unfold c1, with_live, with_tombstones. cbn. f_equal.
  - by rewrite insert_insert_eq, delete_delete_eq.
  - rewrite insert_insert_eq. f_equal. set_solver.
Qed.

(** C6 (delete is always applied and idempotent): on a cache that tracks
    [rtype], [record_resource_delete] returns normally, adds the id to the
    type's tombstone set, removes the live entry, leaves every other type
    alone and emits one deletion notification carrying the previous
    snapshot ([None] when the id was not live); a second call for the same
    id emits a notification again, with previous snapshot [None], and
    leaves the cache exactly as the first call left it. *)
Theorem delete_idempotent c context context' rtype rid :
  wf c → rtype ∈ resource_types c →
  let x1 := record_resource_delete context rtype rid c in
  let x2 := record_resource_delete context' rtype rid (state_of x1) in
  result_of x1 = Returns tt ∧
  emitted x1 = [AFTER_DELETE rtype context (live c rtype !! rid) rid] ∧
  tombstones (state_of x1) rtype = {[rid]} ∪ tombstones c rtype ∧
  live (state_of x1) rtype = delete rid (live c rtype) ∧
  (∀ rt, rt ≠ rtype →
     tombstones (state_of x1) rt = tombstones c rt ∧
     live (state_of x1) rt = live c rt) ∧
  result_of x2 = Returns tt ∧
  emitted x2 = [AFTER_DELETE rtype context' None rid] ∧
  state_of x2 = state_of x1.
Proof.
  intros Hwf Hin x1 x2.
  destruct (delete_preserves c context rtype rid Hwf) as [Hwf1 Hty1].
  assert (Hin1 : rtype ∈ resource_types (state_of x1)) by (unfold x1; by rewrite Hty1).
  unfold x2. rewrite (record_resource_delete_tracked (state_of x1)) by done.
  unfold x1. rewrite record_resource_delete_tracked by done. finished.
  rewrite delete_twice_state.
  rewrite tombstones_with_live, tombstones_with_tombstones, decide_True by done.
  rewrite !live_with_live, decide_True by done.
  repeat split; try done.
  - rewrite tombstones_with_live, tombstones_with_tombstones.
    by rewrite decide_False.
  - rewrite live_with_live, live_with_tombstones. by rewrite decide_False.
  - by rewrite lookup_delete_eq.
Qed.

Lemma delete_idempotent_witness :
  let c := state_of (record_resource_update "ctx" "port" (port "a" 5 "up")
                       (__init__ ["port"; "network"])) in
  let x1 := record_resource_delete "ctx" "port" "a" c in
  let x2 := record_resource_delete "ctx" "port" "a" (state_of x1) in
  wf c ∧ "port" ∈ resource_types c ∧
  emitted x1 = [AFTER_DELETE "port" "ctx" (live c "port" !! "a") "a"] ∧
  emitted x2 = [AFTER_DELETE "port" "ctx" None "a"] ∧
  state_of x2 = state_of x1.
Proof.
  assert (Hwf : wf (state_of (record_resource_update "ctx" "port"
                      (port "a" 5 "up") (__init__ ["port"; "network"]))))
    by apply update_preserves, wf_init.
  assert (Hin : "port" ∈ resource_types (state_of (record_resource_update
                      "ctx" "port" (port "a" 5 "up") (__init__ ["port"; "network"]))))
    by (vm_compute; set_solver).
  pose proof (delete_idempotent _ "ctx" "ctx" "port" "a" Hwf Hin)
    as (_ & H1 & _ & _ & _ & _ & H2 & H3).
  exact (conj Hwf (conj Hin (conj H1 (conj H2 H3)))).
Defined.

(** ** Updates without a semantic change *)

(** C5, as stated, fails: an incoming copy that agrees with the live entry
    on every field but [revision_number] and [updated_at] and carries a
    lower revision number is stale; the stored entry keeps its own
    revision number. *)
Lemma noop_update_lower_revision_not_stored :
  let existing := port "a" 5 "up" in
  let incoming := port "a" 3 "up" in
  let c := state_of (record_resource_update "ctx" "port" existing
                       (__init__ ["port"])) in
  let x := record_resource_update "ctx" "port" incoming c in
  live c "port" !! "a" = Some existing ∧
  extra existing = extra incoming ∧ id existing = id incoming ∧
  ¬ (stored_revision (state_of x) "port" "a" = Some (revision_number incoming)
     ∧ emitted x = []).
Proof.
  cbv zeta. split; [vm_compute; reflexivity|].
  split; [reflexivity|]. split; [reflexivity|].
  intros [H _]. vm_compute in H. discriminate.
Qed.

(** C5, amended (no-op suppression): when the incoming resource is not
    stale (its id is not tombstoned and its revision number is not lower
    than the live entry's) and agrees with the live entry on every field
    but [revision_number] and [updated_at], [record_resource_update]
    replaces the stored entry by the incoming resource, so that the stored
    revision number and update time are the incoming ones, and emits no
    notification. *)
Theorem noop_update_replaces_silently c context rtype existing resource :
  wf c → rtype ∈ resource_types c →
  live c rtype !! id resource = Some existing →
  id resource ∉ tombstones c rtype →
  revision_number existing ≤ revision_number resource →
  same_but_revision existing resource →
  let x := record_resource_update context rtype resource c in
  result_of x = Returns tt ∧
  emitted x = [] ∧
  result_of (get_resource_by_id rtype (id resource) (state_of x))
    = Returns (Some resource) ∧
  stored_revision (state_of x) rtype (id resource)
    = Some (revision_number resource) ∧
  updated_at <$> live (state_of x) rtype !! id resource
    = Some (updated_at resource).
Proof.
  intros Hwf Hin Hl Ht Hrev Hsame x.
  destruct (update_preserves c context rtype resource Hwf) as [Hwf' Hty].
  assert (Hgets : live (state_of x) rtype !! id resource = Some resource
                  ∧ result_of x = Returns tt ∧ emitted x = []).
  { unfold x. rewrite record_resource_update_tracked by done.
    assert (Hs : stale_in c rtype resource = false).
    { apply stale_in_false. split; [done|]. intros e He.
      rewrite Hl in He. by injection He as <-. }
    rewrite Hs. finished. rewrite live_with_live, decide_True by done.
    rewrite lookup_insert_eq. repeat split.
    unfold update_events. rewrite Hl.
    by rewrite (changed_fields_same existing resource Hsame), decide_True. }
  destruct Hgets as (Hget & Hres & Hem).
  repeat split; try done.
  - rewrite get_resource_by_id_tracked; [|done|by unfold x; rewrite Hty].
    unfold result_of; cbn [fst]. by rewrite Hget.
  - unfold stored_revision. by rewrite Hget.
  - by rewrite Hget.
Qed.

Lemma noop_update_replaces_silently_witness :
  let existing := port "a" 5 "up" in
  let incoming := port "a" 6 "up" in
  let c := state_of (record_resource_update "ctx" "port" existing
                       (__init__ ["port"])) in
  let x := record_resource_update "ctx" "port" incoming c in
  wf c ∧ "port" ∈ resource_types c ∧
  live c "port" !! id incoming = Some existing ∧
  (id incoming ∉ tombstones c "port") ∧
  revision_number existing ≤ revision_number incoming ∧
  same_but_revision existing incoming ∧
  emitted x = [] ∧
  stored_revision (state_of x) "port" "a" = Some 6.
Proof.
  assert (Hwf : wf (state_of (record_resource_update "ctx" "port"
                      (port "a" 5 "up") (__init__ ["port"]))))
    by apply update_preserves, wf_init.
  assert (Hin : "port" ∈ resource_types (state_of (record_resource_update
                      "ctx" "port" (port "a" 5 "up") (__init__ ["port"]))))
    by (vm_compute; set_solver).
  assert (Hl : live (state_of (record_resource_update "ctx" "port"
                      (port "a" 5 "up") (__init__ ["port"]))) "port"
                 !! id (port "a" 6 "up") = Some (port "a" 5 "up"))
    by (vm_compute; reflexivity).
  assert (Ht : id (port "a" 6 "up") ∉ tombstones (state_of
                 (record_resource_update "ctx" "port" (port "a" 5 "up")
                    (__init__ ["port"]))) "port")
    by (vm_compute; set_solver).
  assert (Hrev : revision_number (port "a" 5 "up")
                 ≤ revision_number (port "a" 6 "up")) by (simpl; lia).
  assert (Hsame : same_but_revision (port "a" 5 "up") (port "a" 6 "up")).
  { intros k Hr Hu. unfold to_dict, port; cbn [id revision_number updated_at extra].
    rewrite !lookup_insert. repeat case_decide; congruence. }
  pose proof (noop_update_replaces_silently _ "ctx" "port" _ _
                Hwf Hin Hl Ht Hrev Hsame) as (_ & H2 & _ & H4 & _).
  exact (conj Hwf (conj Hin (conj Hl (conj Ht (conj Hrev (conj Hsame (conj H2 H4))))))).
Defined.

(** ** Out-of-order delivery *)

(** C3, as stated, fails: with the revisions 5, 3, 7 delivered in that
    order, the revision-7 call emits nothing when the revision-7 resource
    differs from the revision-5 one only in [revision_number] and
    [updated_at]. *)
Lemma unordered_delivery_third_call_silent :
  let c0 := __init__ ["port"] in
  let x1 := record_resource_update "ctx" "port" (port "a" 5 "up") c0 in
  let x2 := record_resource_update "ctx" "port" (port "a" 3 "up") (state_of x1) in
  let x3 := record_resource_update "ctx" "port" (port "a" 7 "up") (state_of x2) in
  ¬ (stored_revision (state_of x3) "port" "a" = Some 7 ∧
     emitted x1 ≠ [] ∧ emitted x2 = [] ∧ emitted x3 ≠ []).
Proof.
  cbv zeta. intros (_ & _ & _ & H). apply H. vm_compute. reflexivity.
Qed.

(** C3, amended (staleness rule, out-of-order delivery): [_is_stale]
    answers [True] exactly when the id is tombstoned or a live entry has a
    strictly greater revision number, so an equal revision is accepted; a
    stale update is dropped and any other is stored.
    For an id that is neither live nor tombstoned, updates with revisions
    5, 3, 7 in that order leave revision 7 stored; the revision-5 call is a
    create and emits a notification; the revision-3 call is stale by its
    revision, changes nothing and emits nothing; the revision-7 call emits
    a notification exactly when some field of the revision-7 resource,
    other than [revision_number] and [updated_at], has a value that the
    revision-5 resource does not have for it (a field that only the
    revision-5 resource has is not compared). *)
Theorem staleness_and_unordered_delivery c context rtype rid r5 r3 r7 :
  wf c → rtype ∈ resource_types c →
  (∀ resource,
     ∃ b, _is_stale rtype resource c = (Returns b, c, []) ∧
          (b = true ↔
             id resource ∈ tombstones c rtype ∨
             ∃ existing, live c rtype !! id resource = Some existing ∧
                         revision_number existing > revision_number resource) ∧
          (b = true →
             record_resource_update context rtype resource c
               = (Returns tt, c, [])) ∧
          (b = false →
             live (state_of (record_resource_update context rtype resource c))
                  rtype !! id resource = Some resource)) ∧
  (rid ∉ tombstones c rtype → live c rtype !! rid = None →
   id r5 = rid → id r3 = rid → id r7 = rid →
   revision_number r5 = 5 → revision_number r3 = 3 → revision_number r7 = 7 →
   let x1 := record_resource_update context rtype r5 c in
   let x2 := record_resource_update context rtype r3 (state_of x1) in
   let x3 := record_resource_update context rtype r7 (state_of x2) in
   emitted x1 =
     [AFTER_UPDATE rtype context (_get_changed_fields None r5) None r5 rid] ∧
   result_of (_is_stale rtype r3 (state_of x1)) = Returns true ∧
   (rid ∉ tombstones (state_of x1) rtype) ∧
   x2 = (Returns tt, state_of x1, []) ∧
   live (state_of x3) rtype !! rid = Some r7 ∧
   stored_revision (state_of x3) rtype rid = Some 7 ∧
   (emitted x3 =
      if decide (_get_changed_fields (Some r5) r7 = ∅) then []
      else [AFTER_UPDATE rtype context (_get_changed_fields (Some r5) r7)
              (Some r5) r7 rid]) ∧
   (emitted x3 ≠ [] ↔
      ∃ k, k ∈ dom (to_dict r7) ∧ k ≠ "revision_number" ∧ k ≠ "updated_at" ∧
           to_dict r5 !! k ≠ to_dict r7 !! k)).
Proof.
  intros Hwf Hin. split.
  - intros resource. exists (stale_in c rtype resource).
    split; [by apply _is_stale_tracked|]. split; [|split].
    + rewrite stale_in_true.
      split; (intros [H|(e & He & Hlt)]; [by left|right]);
        exists e; (split; [done|lia]).
    + intros Hs. rewrite record_resource_update_tracked by done. by rewrite Hs.
    + intros Hs. rewrite record_resource_update_tracked by done. rewrite Hs.
      finished. rewrite live_with_live, decide_True by done.
      apply lookup_insert_eq.
  - intros Ht Hl Hid5 Hid3 Hid7 Hr5 Hr3 Hr7 x1 x2 x3.
    (* the create *)
    assert (Hs1 : stale_in c rtype r5 = false).
    { apply stale_in_false. rewrite Hid5, Hl. split; [done|]. by intros e. }
    assert (Hx1 : x1 = (Returns tt, with_live c rtype (<[rid := r5]> (live c rtype)),
                        update_events context rtype None r5)).
    { unfold x1. rewrite record_resource_update_tracked by done.
      by rewrite Hs1, Hid5, Hl. }
    set (c1 := with_live c rtype (<[rid := r5]> (live c rtype))) in *.
    assert (Hwf1 : wf c1) by by apply wf_with_live.
    assert (Hin1 : rtype ∈ resource_types c1) by done.
    assert (Hl1 : live c1 rtype !! rid = Some r5).
    { unfold c1. rewrite live_with_live, decide_True by done. apply lookup_insert_eq. }
    assert (Ht1 : rid ∉ tombstones c1 rtype) by done.
    (* the stale one *)
    assert (Hs2 : stale_in c1 rtype r3 = true).
    { apply stale_in_true. right. exists r5. rewrite Hid3. split; [done|lia]. }
    assert (Hx2 : x2 = (Returns tt, c1, [])).
    { unfold x2. rewrite Hx1. finished.
      rewrite record_resource_update_tracked by done. by rewrite Hs2. }
    (* the update *)
    assert (Hs3 : stale_in c1 rtype r7 = false).
    { apply stale_in_false. rewrite Hid7, Hl1. split; [done|].
      intros e [= <-]. lia. }
    assert (Hx3 : x3 = (Returns tt, with_live c1 rtype (<[rid := r7]> (live c1 rtype)),
                        update_events context rtype (Some r5) r7)).
    { unfold x3. rewrite Hx2. finished.
      rewrite record_resource_update_tracked by done.
      by rewrite Hs3, Hid7, Hl1. }
    assert (Hem3 : emitted x3 =
      if decide (_get_changed_fields (Some r5) r7 = ∅) then []
      else [AFTER_UPDATE rtype context (_get_changed_fields (Some r5) r7)
              (Some r5) r7 rid]).
    { rewrite Hx3. finished. unfold update_events. by rewrite Hid7. }
    assert (Hl3 : live (state_of x3) rtype !! rid = Some r7).
    { rewrite Hx3. finished. rewrite live_with_live, decide_True by done.
      apply lookup_insert_eq. }
    repeat split.
    + rewrite Hx1. finished. unfold update_events.
      rewrite decide_False, Hid5; [done|].
      intros He. pose proof (changed_fields_create r5) as Hc.
      rewrite He in Hc. by apply not_elem_of_empty in Hc.
    + rewrite Hx1. unfold state_of at 1; cbn [fst snd].
      rewrite _is_stale_tracked by done. unfold result_of; cbn [fst].
      by rewrite Hs2.
    + by rewrite Hx1.
    + by rewrite Hx2, Hx1.
    + done.
    + unfold stored_revision. by rewrite Hl3, <- Hr7.
    + done.
    + rewrite Hem3. intros Hne.
      destruct (decide (_get_changed_fields (Some r5) r7 = ∅)) as [|Hc]; [done|].
      apply set_choose_L in Hc as [k Hk].
      apply changed_fields_spec in Hk as (Hd & Hr & Hu & Hv).
      exists k. repeat split; try done. by apply Hv.
    + rewrite Hem3. intros (k & Hd & Hr & Hu & Hv).
      rewrite decide_False; [done|].
      intros He. assert (Hk : k ∈ _get_changed_fields (Some r5) r7).
      { apply changed_fields_spec. repeat split; try done. by intros old [= <-]. }
      rewrite He in Hk. by apply not_elem_of_empty in Hk.
Qed.

Lemma staleness_and_unordered_delivery_witness :
  let c := __init__ ["port"] in
  let x1 := record_resource_update "ctx" "port" (port "a" 5 "up") c in
  let x2 := record_resource_update "ctx" "port" (port "a" 3 "up") (state_of x1) in
  let x3 := record_resource_update "ctx" "port" (port "a" 7 "down") (state_of x2) in
  wf c ∧ "port" ∈ resource_types c ∧
  ("a" ∉ tombstones c "port") ∧ live c "port" !! "a" = None ∧
  x2 = (Returns tt, state_of x1, []) ∧
  stored_revision (state_of x3) "port" "a" = Some 7.
Proof.
  assert (Hwf : wf (__init__ ["port"])) by apply wf_init.
  assert (Hin : "port" ∈ resource_types (__init__ ["port"]))
    by (vm_compute; set_solver).
  assert (Ht : "a" ∉ tombstones (__init__ ["port"]) "port")
    by (vm_compute; set_solver).
  assert (Hl : live (__init__ ["port"]) "port" !! "a" = None)
    by (vm_compute; reflexivity).
  pose proof (proj2 (staleness_and_unordered_delivery (__init__ ["port"]) "ctx"
                "port" "a" (port "a" 5 "up") (port "a" 3 "up") (port "a" 7 "down")
                Hwf Hin)
              Ht Hl eq_refl eq_refl eq_refl eq_refl eq_refl eq_refl)
    as (_ & _ & _ & H2 & _ & H3 & _).
  exact (conj Hwf (conj Hin (conj Ht (conj Hl (conj H2 H3))))).
Defined.

(** ** Lookups *)

Lemma map_to_list_filter_perm {V} (P : string * V → Prop)
    `{∀ x, Decision (P x)} (m : gmap string V) :
  map_to_list (filter P m) ≡ₚ filter P (map_to_list m).
Proof.
  apply NoDup_Permutation.
  - apply NoDup_map_to_list.
  - apply NoDup_filter, NoDup_map_to_list.
  - intros [k v]. rewrite list_elem_of_filter, !elem_of_map_to_list.
    rewrite map_lookup_filter_Some. tauto.
Qed.

Lemma comprehension_values (matcher : Resource → outcome bool)
    (p : Resource → bool) (kvs : list (string * Resource)) :
  (∀ kv, kv ∈ kvs → matcher kv.2 = Returns (p kv.2)) →
  comprehension matcher (map snd kvs)
    = Returns ((filter (λ kv, p kv.2 = true) kvs).*2).
Proof.
  induction kvs as [|kv kvs IH]; intros Hm; [done|].
  cbn [map comprehension]. rewrite (Hm kv) by left.
  rewrite IH by (intros kv' Hkv'; apply Hm; by right).
  rewrite filter_cons. destruct (p kv.2) eqn:Hp.
  - by rewrite decide_True.
  - by rewrite decide_False.
Qed.

Lemma match_resources_with_func_tracked c rtype matcher p :
  wf c → rtype ∈ resource_types c →
  (∀ k r, live c rtype !! k = Some r → matcher r = Returns (p r)) →
  ∃ l, match_resources_with_func rtype matcher c = (Returns l, c, []) ∧
       l ≡ₚ (map_to_list (selected p (live c rtype))).*2 ∧
       ∀ r, r ∈ l ↔ (∃ k, live c rtype !! k = Some r) ∧ p r = true.
Proof.
  intros Hwf Hin Hm.
  exists ((filter (λ kv, p kv.2 = true) (map_to_list (live c rtype))).*2).
  split; [|split].
  - unfold match_resources_with_func, bind, lift.
    rewrite _type_cache_tracked by done.
    rewrite (comprehension_values matcher p); [done|].
    intros [k r] Hkr%elem_of_map_to_list. by apply (Hm k).
  - unfold selected. by rewrite map_to_list_filter_perm.
  - intros r. rewrite list_elem_of_fmap. split.
    + intros ([k r'] & -> & Hkr). apply list_elem_of_filter in Hkr as [Hp Hkr].
      apply elem_of_map_to_list in Hkr. split; [by exists k|done].
    + intros [[k Hk] Hp]. exists (k, r). split; [done|].
      apply list_elem_of_filter. split; [done|]. by apply elem_of_map_to_list.
Qed.



Lemma comprehension_raises matcher l e :
  comprehension matcher l = Raises e → ∃ r, r ∈ l ∧ matcher r = Raises e.
Proof.
  induction l as [|r l IH]; [done|]. cbn [comprehension].
  destruct (matcher r) as [b|e'] eqn:Hm.
  - destruct (comprehension matcher l) as [rs|e'']; [done|].
    intros [= <-]. destruct IH as (r' & Hr' & Hm'); [done|].
    exists r'. split; [by right|done].
  - intros [= <-]. exists r. split; [left|done].
Qed.

Lemma match_resources_with_func_raises c rtype matcher e :
  wf c → rtype ∈ resource_types c →
  result_of (match_resources_with_func rtype matcher c) = Raises e →
  ∃ k r, live c rtype !! k = Some r ∧ matcher r = Raises e.
Proof.
  intros Hwf Hin. unfold match_resources_with_func, bind, lift.
  rewrite _type_cache_tracked by done. unfold result_of; cbn [fst].
  intros (r & Hr & Hm)%comprehension_raises.
  apply list_elem_of_In, in_map_iff in Hr as ([k r'] & <- & Hkr).
  apply list_elem_of_In, elem_of_map_to_list in Hkr. by exists k, r'.
Qed.

Lemma all_match_raises class_attrs o filters e :
  all_match class_attrs o filters = Raises e →
  ∃ k v, (k, v) ∈ filters ∧ to_dict o !! k = None ∧ (k ∉ class_attrs) ∧
         e = AttributeError k.
Proof.
  induction filters as [|[k v] filters IH]; [done|].
  cbn [all_match]. unfold getattr.
  destruct (to_dict o !! k) as [w|] eqn:Hk.
  - destruct (decide (FieldValue v = FieldValue w)); [|done].
    intros (k' & v' & Hin & H)%IH. exists k', v'. split; [by right|done].
  - destruct (decide (k ∈ class_attrs)) as [Hc|Hc].
    + by rewrite decide_False.
    + intros [= <-]. exists k, v. split; [left|done].
Qed.




(** The spec's example: of three cached resources with zones A, A, B, the
    filter zone = A finds the two A entries. *)
Example find_zone_A :
  let c := run_ops [Update "ctx" "port" (zone "p1" "A");
                    Update "ctx" "port" (zone "p2" "A");
                    Update "ctx" "port" (zone "p3" "B")] (__init__ ["port"]) in
  ∃ l, result_of (get_resources ∅ "port" [("zone", VStr "A")] c) = Returns l ∧
       l ≡ₚ [zone "p1" "A"; zone "p2" "A"].
Proof.
  eexists. split; [vm_compute; reflexivity|].
  first [reflexivity | apply Permutation_swap].
Qed.

(** A filter key that names a method of the resource matches nothing and
    does not raise. *)
Example find_method_name :
  let c := run_ops [Update "ctx" "port" (zone "p1" "A")] (__init__ ["port"]) in
  result_of (get_resources {["to_dict"; "get"]} "port" [("to_dict", VInt 1)] c)
    = Returns [].
Proof. vm_compute. reflexivity. Qed.

(** ** The bulk load *)

Lemma with_live_id c rtype :
  wf c → rtype ∈ resource_types c → with_live c rtype (live c rtype) = c.
Proof.
  intros Hwf Hin. destruct (wf_tracked c rtype Hwf Hin) as [Hc _].
  destruct c as [ts cs ds]. unfold with_live. cbn in *. f_equal.
  by apply insert_id.
Qed.

Lemma with_live_twice c rtype d1 d2 :
  with_live (with_live c rtype d1) rtype d2 = with_live c rtype d2.
Proof. unfold with_live. cbn. f_equal. apply insert_insert_eq. Qed.

Lemma flood_one_type c rtype pulled :
  wf c → rtype ∈ resource_types c →
  for_each pulled (λ resource, type_cache_setitem rtype (id resource) resource) c
    = (Returns tt, with_live c rtype (flood (live c rtype) pulled), []).
Proof.
  revert c. induction pulled as [|r pulled IH]; intros c Hwf Hin.
  - cbn. by rewrite with_live_id.
  - cbn [for_each flood foldl]. unfold bind at 1.
    rewrite type_cache_setitem_tracked by done.
    rewrite IH; [|by apply wf_with_live|done].
    rewrite live_with_live, decide_True by done.
    by rewrite with_live_twice.
Qed.

Lemma flood_lookup d pulled k r :
  flood d pulled !! k = Some r →
  d !! k = Some r ∨ (r ∈ pulled ∧ id r = k).
Proof.
  revert d. induction pulled as [|r' pulled IH]; intros d; cbn; [by left|].
  intros H. apply IH in H as [H|[H1 H2]].
  - rewrite lookup_insert in H. case_decide as Hk.
    + injection H as <-. right. split; [left|done].
    + by left.
  - right. split; [by right|done].
Qed.

Lemma flood_types c (bulk_pull : Context → string → list Resource) context
    (rts : list string) :
  wf c → (∀ rt, rt ∈ rts → rt ∈ resource_types c) →
  ∃ c',
    for_each rts (λ rtype,
      for_each (bulk_pull context rtype) (λ resource,
        type_cache_setitem rtype (id resource) resource)) c
      = (Returns tt, c', []) ∧
    wf c' ∧ resource_types c' = resource_types c ∧
    _deleted_ids_by_type c' = _deleted_ids_by_type c ∧
    ∀ rt k r, live c' rt !! k = Some r →
      live c rt !! k = Some r ∨ (r ∈ bulk_pull context rt ∧ id r = k).
Proof.
  revert c. induction rts as [|rt rts IH]; intros c Hwf Hsub.
  - exists c. do 4 (split; [done|]). intros rt k r Hr. by left.
  - cbn [for_each]. unfold bind at 1.
    rewrite flood_one_type; [|done|apply Hsub; by left].
    set (c1 := with_live c rt (flood (live c rt) (bulk_pull context rt))).
    assert (Hwf1 : wf c1) by (apply wf_with_live; [done|apply Hsub; by left]).
    destruct (IH c1 Hwf1) as (c' & Hrun & Hwf' & Hty & Hdel & Hlive).
    { intros rt' Hrt'. apply Hsub. by right. }
    exists c'. rewrite Hrun. do 4 (split; [done|]).
    intros rt' k r Hr. apply Hlive in Hr as [Hr|Hr]; [|by right].
    unfold c1 in Hr. rewrite live_with_live in Hr.
    destruct (decide (rt = rt')) as [<-|]; [|by left].
    by apply flood_lookup.
Qed.

Lemma for_each_ext {A} (l : list A) (body1 body2 : A → M unit) c :
  (∀ x c', x ∈ l → body1 x c' = body2 x c') →
  for_each l body1 c = for_each l body2 c.
Proof.
  revert c. induction l as [|x l IH]; intros c Hb; [done|].
  cbn [for_each]. unfold bind. rewrite Hb by left.
  destruct (body2 x c) as [[[[]|e] c1] out1]; [|done].
  rewrite IH; [done|]. intros y c' Hy. apply Hb. by right.
Qed.

Lemma bulk_flood_cache_from_loop bulk_pull c :
  bulk_flood_cache_from bulk_pull c =
    for_each (resource_types c) (λ rtype,
      do pulled <- lift (bulk_pull get_admin_context rtype) ;
      for_each pulled (λ resource,
        type_cache_setitem rtype (id resource) resource)) c.
Proof.
  unfold bulk_flood_cache_from, bind at 1, get_self.
  by destruct (for_each _ _ c) as [[r c'] out].
Qed.

Lemma pull_answers (answer : list Resource) (body : list Resource → M unit) c :
  (do pulled <- lift (Returns answer) ; body pulled) c = body answer c.
Proof. unfold bind, lift. by destruct (body answer c) as [[r c'] out]. Qed.

Lemma bulk_flood_cache_answers bulk_pull c :
  bulk_flood_cache bulk_pull c =
    for_each (resource_types c) (λ rtype,
      for_each (bulk_pull get_admin_context rtype) (λ resource,
        type_cache_setitem rtype (id resource) resource)) c.
Proof.
  unfold bulk_flood_cache. rewrite bulk_flood_cache_from_loop.
  apply for_each_ext. intros rtype c' _. apply pull_answers.
Qed.

(** A puller that answers for every tracked type loads as its answers do. *)
Lemma bulk_flood_cache_from_answers bulk_pull answers c :
  (∀ rt, rt ∈ resource_types c →
         bulk_pull get_admin_context rt = Returns (answers get_admin_context rt)) →
  bulk_flood_cache_from bulk_pull c = bulk_flood_cache answers c.
Proof.
  intros Hans. rewrite bulk_flood_cache_from_loop, bulk_flood_cache_answers.
  apply for_each_ext. intros rtype c' Hin. rewrite Hans by done.
  apply pull_answers.
Qed.

Lemma bulk_flood_cache_spec c bulk_pull :
  wf c →
  ∃ c',
    bulk_flood_cache bulk_pull c = (Returns tt, c', []) ∧
    wf c' ∧ resource_types c' = resource_types c ∧
    _deleted_ids_by_type c' = _deleted_ids_by_type c ∧
    ∀ rt k r, live c' rt !! k = Some r →
      live c rt !! k = Some r ∨
      (r ∈ bulk_pull get_admin_context rt ∧ id r = k).
Proof.
  intros Hwf.
  destruct (flood_types c bulk_pull get_admin_context (resource_types c) Hwf)
    as (c' & Hrun & H); [done|].
  exists c'. split; [|done].
  by rewrite bulk_flood_cache_answers, Hrun.
Qed.

Lemma exec_preserves c o :
  wf c →
  wf (state_of (exec o c)) ∧
  resource_types (state_of (exec o c)) = resource_types c.
Proof.
  intros Hwf. destruct o as [ctx rt r|ctx rt rid|bp]; cbn [exec].
  - by apply update_preserves.
  - by apply delete_preserves.
  - destruct (bulk_flood_cache_spec c bp Hwf) as (c' & -> & Hwf' & Hty & _).
    by finished.
Qed.

Lemma reachable_wf c : reachable c → wf c.
Proof.
  induction 1 as [rts|c o _ IH]; [apply wf_init|by apply exec_preserves].
Qed.

(** ** Tombstoned ids and live ids *)

Lemma init_dicts_lookup (rts : list string) {V} (e : V) (d0 : gmap string V) k v :
  foldl (λ d rt, <[rt := e]> d) d0 rts !! k = Some v → v = e ∨ d0 !! k = Some v.
Proof.
  revert d0. induction rts as [|rt rts IH]; intros d0; cbn; [by right|].
  intros H. apply IH in H as [H|H]; [by left|].
  rewrite lookup_insert in H. case_decide; [left; congruence|by right].
Qed.

Lemma disjoint_init rts : disjoint_inv (__init__ rts).
Proof.
  intros rtype rid. unfold tombstones, __init__. cbn.
  destruct (foldl _ _ rts !! rtype) as [s|] eqn:Hs; [|set_solver].
  apply init_dicts_lookup in Hs as [->|Hs]; [set_solver|].
  by rewrite lookup_empty in Hs.
Qed.

Lemma update_keeps_disjoint c context rt resource :
  wf c → disjoint_inv c →
  disjoint_inv (state_of (record_resource_update context rt resource c)).
Proof.
  intros Hwf Hd rtype rid Ht.
  apply update_keeps_buried; [done|].
  assert (Ht' : rid ∈ tombstones c rtype).
  { revert Ht. destruct (tracked_dec c rt) as [Hin|Hn].
    - rewrite record_resource_update_tracked by done.
      by destruct (stale_in c rt resource).
    - by rewrite record_resource_update_untracked. }
  split; [done|by apply Hd].
Qed.

Lemma delete_keeps_disjoint c context rt rid' :
  wf c → disjoint_inv c →
  disjoint_inv (state_of (record_resource_delete context rt rid' c)).
Proof.
  intros Hwf Hd rtype rid Ht.
  destruct (tracked_dec c rt) as [Hin|Hn].
  - destruct (decide (rt = rtype ∧ rid' = rid)) as [[-> ->]|Hne].
    + by apply delete_buries.
    + apply delete_keeps_buried; [done|].
      assert (Ht' : rid ∈ tombstones c rtype).
      { revert Ht. rewrite record_resource_delete_tracked by done. finished.
        rewrite tombstones_with_live, tombstones_with_tombstones.
        destruct (decide (rt = rtype)) as [->|]; [|done].
        intros [Heq%elem_of_singleton|H]%elem_of_union; [|done].
        destruct Hne. by split. }
      split; [done|by apply Hd].
  - revert Ht. rewrite record_resource_delete_untracked by done. apply Hd.
Qed.

(** Updates and deletes never make a tombstoned id live: from the
    constructor on, the push path keeps the two apart. *)
Lemma push_ops_keep_disjoint ops c :
  Forall is_push ops → wf c → disjoint_inv c → disjoint_inv (run_ops ops c).
Proof.
  intros Hops. revert c. induction Hops as [|o ops Ho _ IH]; intros c Hwf Hd; [done|].
  destruct o as [ctx rt r|ctx rt rid'|bp]; [| |done]; cbn [run_ops exec].
  - apply IH; [by apply update_preserves|by apply update_keeps_disjoint].
  - apply IH; [by apply delete_preserves|by apply delete_keeps_disjoint].
Qed.

(** So does a bulk load whose pulled resources are not tombstoned. *)
Lemma bulk_flood_keeps_disjoint c bulk_pull :
  wf c → disjoint_inv c →
  (∀ rt r, r ∈ bulk_pull get_admin_context rt → id r ∉ tombstones c rt) →
  disjoint_inv (state_of (bulk_flood_cache bulk_pull c)).
Proof.
  intros Hwf Hd Hfresh rtype rid Ht.
  destruct (bulk_flood_cache_spec c bulk_pull Hwf)
    as (c' & Hrun & _ & _ & Hdel & Hlive).
  rewrite Hrun in Ht |- *. revert Ht. finished. intros Ht.
  assert (Ht' : rid ∈ tombstones c rtype) by (unfold tombstones in *; by rewrite <- Hdel).
  destruct (live c' rtype !! rid) as [r|] eqn:Hr; [|done].
  apply Hlive in Hr as [Hr|[Hr Hid]].
  - by rewrite (Hd rtype rid Ht') in Hr.
  - subst rid. by destruct (Hfresh rtype r Hr).
Qed.

(** C7: the bulk load stores a pulled resource without looking at the
    tombstones.  After [record_resource_delete] for id a, a bulk load whose
    answer still holds a leaves a both tombstoned and live. *)
Theorem bulk_load_revives_tombstoned :
  let pulled := λ (_ : Context) (_ : string), [port "a" 1 "up"] in
  let c1 := state_of (record_resource_delete "ctx" "port" "a" (__init__ ["port"])) in
  let x := bulk_flood_cache pulled c1 in
  reachable (state_of x) ∧
  result_of x = Returns tt ∧
  "a" ∈ tombstones (state_of x) "port" ∧
  live (state_of x) "port" !! "a" = Some (port "a" 1 "up") ∧
  ¬ disjoint_inv (state_of x).
Proof.
  cbv zeta.
  assert (Ht : "a" ∈ tombstones (state_of (bulk_flood_cache
             (λ _ _, [port "a" 1 "up"])
             (state_of (record_resource_delete "ctx" "port" "a"
                          (__init__ ["port"])))) ) "port").
  { vm_compute. set_solver. }
  assert (Hl : live (state_of (bulk_flood_cache
             (λ _ _, [port "a" 1 "up"])
             (state_of (record_resource_delete "ctx" "port" "a"
                          (__init__ ["port"])))) ) "port" !! "a"
               = Some (port "a" 1 "up")).
  { vm_compute. reflexivity. }
  repeat split; try done.
  - apply (reach_step _ (BulkFlood _)).
    apply (reach_step _ (Delete "ctx" "port" "a")). apply reach_init.
  - intros Hd. rewrite (Hd "port" "a" Ht) in Hl. discriminate.
Qed.

(** ** Untracked types *)

Lemma get_resource_by_id_untracked c rtype rid :
  rtype ∉ resource_types c →
  get_resource_by_id rtype rid c =
    (Raises (RuntimeError ("Resource cache not tracking " +:+ rtype)), c, []).
Proof.
  intros Hn. unfold get_resource_by_id, bind. by rewrite _type_cache_untracked.
Qed.

Lemma match_resources_with_func_untracked c rtype matcher :
  rtype ∉ resource_types c →
  match_resources_with_func rtype matcher c =
    (Raises (RuntimeError ("Resource cache not tracking " +:+ rtype)), c, []).
Proof.
  intros Hn. unfold match_resources_with_func, bind. by rewrite _type_cache_untracked.
Qed.

(** C8: for a type the cache does not track, the reads fail in
    [_type_cache] with the RuntimeError "Resource cache not tracking ...",
    but [record_resource_update] and [record_resource_delete] index
    [_deleted_ids_by_type] before they reach [_type_cache] and fail with a
    KeyError instead. *)
Theorem untracked_type_errors :
  let c := __init__ ["port"] in
  let not_tracking := RuntimeError "Resource cache not tracking network" in
  get_resource_by_id "network" "a" c = (Raises not_tracking, c, []) ∧
  match_resources_with_func "network" (λ _, Returns true) c
    = (Raises not_tracking, c, []) ∧
  (∀ class_attrs,
     get_resources class_attrs "network" [] c = (Raises not_tracking, c, [])) ∧
  record_resource_update "ctx" "network" (port "a" 1 "up") c
    = (Raises (KeyError "network"), c, []) ∧
  record_resource_delete "ctx" "network" "a" c
    = (Raises (KeyError "network"), c, []) ∧
  (∀ rid, ∃ o, get_resource_by_id "port" rid c = (Returns o, c, [])).
Proof.
  cbv zeta.
  assert (Hn : "network" ∉ resource_types (__init__ ["port"])).
  { cbn. set_solver. }
  pose proof (wf_init ["port"]) as Hwf.
  split_and!.
  - by rewrite get_resource_by_id_untracked.
  - by rewrite match_resources_with_func_untracked.
  - intros class_attrs. unfold get_resources.
    by rewrite match_resources_with_func_untracked.
  - by rewrite record_resource_update_untracked.
  - by rewrite record_resource_delete_untracked.
  - intros rid. eexists. apply get_resource_by_id_tracked; [done|].
    cbn. set_solver.
Qed.

(** The same on every well-formed cache. *)
Lemma untracked_type_errors_general c rtype :
  wf c → rtype ∉ resource_types c →
  let not_tracking := RuntimeError ("Resource cache not tracking " +:+ rtype) in
  (∀ rid, get_resource_by_id rtype rid c = (Raises not_tracking, c, [])) ∧
  (∀ matcher, match_resources_with_func rtype matcher c
                = (Raises not_tracking, c, [])) ∧
  (∀ context resource, record_resource_update context rtype resource c
                = (Raises (KeyError rtype), c, [])) ∧
  (∀ context rid, record_resource_delete context rtype rid c
                = (Raises (KeyError rtype), c, [])).
Proof.
  intros Hwf Hn. split_and!; intros.
  - by apply get_resource_by_id_untracked.
  - by apply match_resources_with_func_untracked.
  - by apply record_resource_update_untracked.
  - by apply record_resource_delete_untracked.
Qed.

(** ** The watcher *)

Lemma handler_ops_push context rtype resources ev :
  Forall is_push (handler_ops context rtype resources ev).
Proof.
  unfold handler_ops. apply Forall_forall. intros o Ho.
  apply list_elem_of_In, in_map_iff in Ho as (r & <- & _). by destruct ev.
Qed.

Lemma run_ops_untracked context rtype resources ev c :
  wf c → rtype ∉ resource_types c →
  run_ops (handler_ops context rtype resources ev) c = c.
Proof.
  intros Hwf Hn. induction resources as [|r rs IH]; [done|].
  cbn [handler_ops map run_ops]. fold (handler_ops context rtype rs ev).
  destruct ev; cbn [exec].
  - by rewrite record_resource_update_untracked.
  - by rewrite record_resource_update_untracked.
  - by rewrite record_resource_delete_untracked.
Qed.

(** A batch handed to [resource_change_handler] leaves the cache as the
    same calls made one by one do. *)
Lemma resource_change_handler_runs context rtype resources ev c :
  wf c →
  state_of (resource_change_handler context rtype resources ev c)
    = run_ops (handler_ops context rtype resources ev) c.
Proof.
  intros Hwf. destruct (tracked_dec c rtype) as [Hin|Hn].
  - revert c Hwf Hin. induction resources as [|r rs IH]; intros c Hwf Hin; [done|].
    unfold resource_change_handler. cbn [for_each handler_ops map run_ops].
    fold (handler_ops context rtype rs ev).
    unfold bind at 1. destruct ev; cbn [exec].
    1,2: destruct (update_preserves c context rtype r Hwf) as [Hwf' Hty];
         rewrite <- IH by (by rewrite ?Hty);
         rewrite record_resource_update_tracked in * by done;
         destruct (stale_in c rtype r); finished;
         unfold resource_change_handler;
         by destruct (for_each rs _ _) as [[? ?] ?].
    destruct (delete_preserves c context rtype (id r) Hwf) as [Hwf' Hty].
    rewrite <- IH by (by rewrite ?Hty).
    rewrite record_resource_delete_tracked in * by done. finished.
    unfold resource_change_handler.
    by destruct (for_each rs _ _) as [[? ?] ?].
  - rewrite run_ops_untracked by done.
    destruct resources as [|r rs]; [done|].
    unfold resource_change_handler. cbn [for_each]. unfold bind.
    destruct ev.
    + by rewrite record_resource_update_untracked.
    + by rewrite record_resource_update_untracked.
    + by rewrite record_resource_delete_untracked.
Qed.

(** * Further properties of the cache *)

(** ** The constructor *)

Lemma live_init rts rtype : live (__init__ rts) rtype = ∅.
Proof.
  unfold live, __init__. cbn.
  destruct (foldl _ _ rts !! rtype) as [d|] eqn:Hd; [|done].
  apply init_dicts_lookup in Hd as [->|Hd]; [done|].
  by rewrite lookup_empty in Hd.
Qed.

Lemma tombstones_init rts rtype : tombstones (__init__ rts) rtype = ∅.
Proof.
  unfold tombstones, __init__. cbn.
  destruct (foldl _ _ rts !! rtype) as [d|] eqn:Hd; [|done].
  apply init_dicts_lookup in Hd as [->|Hd]; [done|].
  by rewrite lookup_empty in Hd.
Qed.

(** A cache fresh from [__init__] is empty for each of its types: every
    lookup by id returns [None], every search returns the empty list
    without calling the matcher, nothing is stale, and the first update of
    any resource is stored. *)
Theorem fresh_cache_is_empty rts rtype :
  rtype ∈ rts →
  let c := __init__ rts in
  (∀ rid, get_resource_by_id rtype rid c = (Returns None, c, [])) ∧
  (∀ matcher, match_resources_with_func rtype matcher c = (Returns [], c, [])) ∧
  (∀ class_attrs filters,
     get_resources class_attrs rtype filters c = (Returns [], c, [])) ∧
  (∀ resource, _is_stale rtype resource c = (Returns false, c, [])) ∧
  (∀ context resource,
     get_resource_by_id rtype (id resource)
       (state_of (record_resource_update context rtype resource c))
     = (Returns (Some resource),
        state_of (record_resource_update context rtype resource c), [])).
Proof.
  intros Hin c. pose proof (wf_init rts) as Hwf.
  assert (Hin' : rtype ∈ resource_types c) by done.
  assert (Hm : ∀ matcher, match_resources_with_func rtype matcher c
                 = (Returns [], c, [])).
  { intros matcher. unfold match_resources_with_func, bind, lift.
    rewrite _type_cache_tracked by done. unfold c.
    by rewrite live_init, map_to_list_empty. }
  assert (Hs : ∀ resource, stale_in c rtype resource = false).
  { intros resource. apply stale_in_false. unfold c.
    rewrite tombstones_init, live_init. split; [set_solver|].
    intros e He. by rewrite lookup_empty in He. }
  split_and!.
  - intros rid. rewrite get_resource_by_id_tracked by done.
    unfold c. by rewrite live_init, lookup_empty.
  - done.
  - intros class_attrs filters. apply Hm.
  - intros resource. rewrite _is_stale_tracked by done. by rewrite Hs.
  - intros context resource.
    destruct (update_preserves c context rtype resource Hwf) as [Hwf' Hty].
    rewrite get_resource_by_id_tracked; [|done|by rewrite Hty].
    do 2 f_equal. rewrite record_resource_update_tracked by done.
    rewrite Hs. finished. rewrite live_with_live, decide_True by done.
    by rewrite lookup_insert_eq.
Qed.

Lemma fresh_cache_is_empty_witness :
  "port" ∈ ["network"; "port"] ∧
  get_resource_by_id "port" "a" (__init__ ["network"; "port"])
    = (Returns None, __init__ ["network"; "port"], []).
Proof.
  assert (Hin : "port" ∈ ["network"; "port"]) by set_solver.
  exact (conj Hin (proj1 (fresh_cache_is_empty _ "port" Hin) "a")).
Defined.

(** ** Reads *)

Lemma _type_cache_reads c rtype : ∃ r, _type_cache rtype c = (r, c, []).
Proof.
  unfold _type_cache, bind, get_self, getitem, ret, raise.
  destruct (decide (rtype ∉ resource_types c)); [by eexists|].
  destruct (_cache_by_type_and_id c !! rtype); by eexists.
Qed.

(** The read methods never change the cache and never notify, on any
    cache and whether they return or raise: [get_resource_by_id],
    [match_resources_with_func] (whatever the matcher does),
    [get_resources] and [_is_stale]. *)
Theorem reads_leave_cache_alone c rtype :
  (∀ rid, ∃ r, get_resource_by_id rtype rid c = (r, c, [])) ∧
  (∀ matcher, ∃ r, match_resources_with_func rtype matcher c = (r, c, [])) ∧
  (∀ class_attrs filters,
     ∃ r, get_resources class_attrs rtype filters c = (r, c, [])) ∧
  (∀ resource, ∃ r, _is_stale rtype resource c = (r, c, [])).
Proof.
  assert (Hm : ∀ matcher, ∃ r, match_resources_with_func rtype matcher c = (r, c, [])).
  { intros matcher. unfold match_resources_with_func, bind, lift.
    destruct (_type_cache_reads c rtype) as [[d|e] ->]; by eexists. }
  split_and!.
  - intros rid. unfold get_resource_by_id, bind, ret.
    destruct (_type_cache_reads c rtype) as [[d|e] ->]; by eexists.
  - done.
  - intros class_attrs filters. apply Hm.
  - intros resource. apply _is_stale_reads.
Qed.

(** ** Calls on tracked types *)

(** On a cache reached from the constructor, no call for a tracked type
    raises of its own: updates and deletes return, the bulk load returns
    when every pull for a tracked type answers, lookups and searches with a
    matcher that does not raise return. *)
Theorem tracked_calls_return c rtype :
  reachable c → rtype ∈ resource_types c →
  (∀ context resource,
     result_of (record_resource_update context rtype resource c) = Returns tt) ∧
  (∀ context rid,
     result_of (record_resource_delete context rtype rid c) = Returns tt) ∧
  (∀ bulk_pull,
     (∀ rt, rt ∈ resource_types c →
            ∃ answer, bulk_pull get_admin_context rt = Returns answer) →
     result_of (bulk_flood_cache_from bulk_pull c) = Returns tt) ∧
  (∀ rid, result_of (get_resource_by_id rtype rid c)
            = Returns (live c rtype !! rid)) ∧
  (∀ p : Resource → bool,
     ∃ l, result_of (match_resources_with_func rtype (λ r, Returns (p r)) c)
            = Returns l) ∧
  (∀ context resources ev,
     result_of (resource_change_handler context rtype resources ev c) = Returns tt).
Proof.
  intros Hwf%reachable_wf Hin. split_and!.
  - intros context resource. rewrite record_resource_update_tracked by done.
    by destruct (stale_in c rtype resource).
  - intros context rid. by rewrite record_resource_delete_tracked.
  - intros bulk_pull Hans.
    set (answers := λ context rt, match bulk_pull context rt with
                                  | Returns answer => answer
                                  | Raises _ => []
                                  end).
    rewrite (bulk_flood_cache_from_answers bulk_pull answers).
    + by destruct (bulk_flood_cache_spec c answers Hwf) as (c' & -> & _).
    + intros rt Hrt. unfold answers. by destruct (Hans rt Hrt) as [answer ->].
  - intros rid. by rewrite get_resource_by_id_tracked.
  - intros p.
    destruct (match_resources_with_func_tracked c rtype (λ r, Returns (p r)) p Hwf Hin)
      as (l & -> & _); [done|]. by exists l.
  - intros context resources ev. revert c Hwf Hin.
    induction resources as [|r rs IH]; intros c Hwf Hin; [done|].
    unfold resource_change_handler. cbn [for_each]. unfold bind.
    destruct ev.
    1,2: destruct (update_preserves c context rtype r Hwf) as [Hwf' Hty];
         specialize (IH _ Hwf'); rewrite Hty in IH; specialize (IH Hin);
         revert IH; rewrite record_resource_update_tracked by done;
         destruct (stale_in c rtype r); finished;
         unfold resource_change_handler;
         by destruct (for_each rs _ _) as [[? ?] ?].
    destruct (delete_preserves c context rtype (id r) Hwf) as [Hwf' Hty].
    specialize (IH _ Hwf'). rewrite Hty in IH. specialize (IH Hin).
    revert IH. rewrite record_resource_delete_tracked by done. finished.
    unfold resource_change_handler.
    by destruct (for_each rs _ _) as [[? ?] ?].
Qed.

Lemma tracked_calls_return_witness :
  let c := state_of (exec (Delete "ctx" "port" "a") (__init__ ["port"])) in
  reachable c ∧ "port" ∈ resource_types c ∧
  result_of (record_resource_update "ctx" "port" (port "a" 1 "up") c) = Returns tt.
Proof.
  assert (Hr : reachable (state_of (exec (Delete "ctx" "port" "a")
                                      (__init__ ["port"]))))
    by apply reach_step, reach_init.
  assert (Hin : "port" ∈ resource_types (state_of (exec (Delete "ctx" "port" "a")
                                      (__init__ ["port"]))))
    by (vm_compute; set_solver).
  exact (conj Hr (conj Hin
    (proj1 (tracked_calls_return _ "port" Hr Hin) "ctx" (port "a" 1 "up")))).
Defined.

(** ** What an update touches *)

Lemma update_elsewhere c context rtype resource rt k :
  wf c → (rt, k) ≠ (rtype, id resource) →
  live (state_of (record_resource_update context rtype resource c)) rt !! k
    = live c rt !! k.
Proof.
  intros Hwf Hne. destruct (tracked_dec c rtype) as [Hin|Hn].
  - rewrite record_resource_update_tracked by done.
    destruct (stale_in c rtype resource); finished; [done|].
    rewrite live_with_live.
    destruct (decide (rtype = rt)) as [<-|]; [|done].
    rewrite lookup_insert_ne; [done|]. intros Hk. apply Hne. by rewrite Hk.
  - by rewrite record_resource_update_untracked.
Qed.

Lemma update_deleted_ids c context rtype resource :
  wf c →
  _deleted_ids_by_type (state_of (record_resource_update context rtype resource c))
    = _deleted_ids_by_type c.
Proof.
  intros Hwf. destruct (tracked_dec c rtype) as [Hin|Hn].
  - rewrite record_resource_update_tracked by done.
    by destruct (stale_in c rtype resource).
  - by rewrite record_resource_update_untracked.
Qed.

(** [record_resource_update] touches one slot only: whatever it does, the
    live entries of every other id and of every other type, all tombstone
    sets and the tracked types are as before; and it calls
    [registry.notify] at most once. *)
Theorem update_frame c context rtype resource :
  wf c →
  let x := record_resource_update context rtype resource c in
  (∀ rt k, (rt, k) ≠ (rtype, id resource) →
           live (state_of x) rt !! k = live c rt !! k) ∧
  (∀ rt, tombstones (state_of x) rt = tombstones c rt) ∧
  _deleted_ids_by_type (state_of x) = _deleted_ids_by_type c ∧
  resource_types (state_of x) = resource_types c ∧
  (length (emitted x) ≤ 1)%nat.
Proof.
  intros Hwf x. unfold x. split_and!.
  - intros rt k Hne. by apply update_elsewhere.
  - intros rt. unfold tombstones. by rewrite update_deleted_ids.
  - by apply update_deleted_ids.
  - by apply update_preserves.
  - destruct (tracked_dec c rtype) as [Hin|Hn].
    + rewrite record_resource_update_tracked by done.
      destruct (stale_in c rtype resource); finished; [simpl; lia|].
      unfold update_events. case_decide; simpl; lia.
    + rewrite record_resource_update_untracked by done. finished. simpl; lia.
Qed.

Lemma update_frame_witness :
  let c := run_ops [Update "ctx" "port" (port "a" 1 "up");
                    Delete "ctx" "port" "b"] (__init__ ["port"]) in
  wf c ∧
  ∀ rt k, (rt, k) ≠ ("port", id (port "c" 1 "up")) →
    live (state_of (record_resource_update "ctx" "port" (port "c" 1 "up") c)) rt !! k
    = live c rt !! k.
Proof.
  assert (Hwf : wf (run_ops [Update "ctx" "port" (port "a" 1 "up");
                             Delete "ctx" "port" "b"] (__init__ ["port"]))).
  { cbn [run_ops exec]. apply delete_preserves, update_preserves, wf_init. }
  exact (conj Hwf (proj1 (update_frame _ "ctx" "port" (port "c" 1 "up") Hwf))).
Defined.

(** ** Notifications of an update *)

(** When [record_resource_update] notifies, the notification tells the
    truth about the cache: [existing] is what the cache held for the id
    before the call, [updated] is what it holds after, [resource_id] is the
    resource's id, and [changed_fields] is not empty and names neither
    [revision_number] nor [updated_at]. *)
Theorem update_notification_is_accurate c context rtype resource n :
  wf c →
  n ∈ emitted (record_resource_update context rtype resource c) →
  ∃ changed_fields,
    n = AFTER_UPDATE rtype context changed_fields
          (live c rtype !! id resource) resource (id resource) ∧
    changed_fields = _get_changed_fields (live c rtype !! id resource) resource ∧
    changed_fields ≠ ∅ ∧
    ("revision_number" ∉ changed_fields) ∧ ("updated_at" ∉ changed_fields) ∧
    changed_fields ⊆ dom (to_dict resource) ∧
    live (state_of (record_resource_update context rtype resource c)) rtype
      !! id resource = Some resource.
Proof.
  intros Hwf. destruct (tracked_dec c rtype) as [Hin|Hn].
  - rewrite record_resource_update_tracked by done.
    destruct (stale_in c rtype resource); finished; [by intros ?%elem_of_nil|].
    unfold update_events. case_decide as Hc; [by intros ?%elem_of_nil|].
    intros ->%list_elem_of_singleton. eexists. split_and!; try done.
    + intros H%changed_fields_spec. by destruct H as (_ & ? & _).
    + intros H%changed_fields_spec. by destruct H as (_ & _ & ? & _).
    + intros k H%changed_fields_spec. by destruct H as (? & _).
    + rewrite live_with_live, decide_True by done. apply lookup_insert_eq.
  - rewrite record_resource_update_untracked by done. finished.
    by intros ?%elem_of_nil.
Qed.

Lemma update_notification_is_accurate_witness :
  let c := __init__ ["port"] in
  let n := AFTER_UPDATE "port" "ctx" (_get_changed_fields None (port "a" 1 "up"))
             None (port "a" 1 "up") "a" in
  wf c ∧ n ∈ emitted (record_resource_update "ctx" "port" (port "a" 1 "up") c) ∧
  live (state_of (record_resource_update "ctx" "port" (port "a" 1 "up") c)) "port"
    !! "a" = Some (port "a" 1 "up").
Proof.
  assert (Hwf : wf (__init__ ["port"])) by apply wf_init.
  assert (Hn : AFTER_UPDATE "port" "ctx" (_get_changed_fields None (port "a" 1 "up"))
                 None (port "a" 1 "up") "a"
               ∈ emitted (record_resource_update "ctx" "port" (port "a" 1 "up")
                            (__init__ ["port"]))).
  { vm_compute. left. }
  destruct (update_notification_is_accurate _ "ctx" "port" (port "a" 1 "up") _ Hwf Hn)
    as (cf & _ & _ & _ & _ & _ & _ & Hl).
  exact (conj Hwf (conj Hn Hl)).
Defined.

(** The first sight of an id is always announced: for an id that is
    neither live nor tombstoned, [record_resource_update] stores the
    resource and notifies exactly once, with no previous snapshot and with
    every field of the resource but [revision_number] and [updated_at] as
    changed. *)
Theorem create_always_notifies c context rtype resource :
  wf c → rtype ∈ resource_types c →
  id resource ∉ tombstones c rtype →
  live c rtype !! id resource = None →
  let x := record_resource_update context rtype resource c in
  result_of x = Returns tt ∧
  live (state_of x) rtype !! id resource = Some resource ∧
  emitted x = [AFTER_UPDATE rtype context
                 (dom (to_dict resource) ∖ {["revision_number"; "updated_at"]})
                 None resource (id resource)] ∧
  "id" ∈ dom (to_dict resource) ∖ ({["revision_number"; "updated_at"]} : gset string).
Proof.
  intros Hwf Hin Ht Hl x.
  assert (Hs : stale_in c rtype resource = false).
  { apply stale_in_false. split; [done|]. intros e He. by rewrite Hl in He. }
  assert (Hcf : _get_changed_fields None resource
                = dom (to_dict resource) ∖ {["revision_number"; "updated_at"]}).
  { apply set_eq. intros k. rewrite changed_fields_spec. set_solver. }
  unfold x. rewrite record_resource_update_tracked by done. rewrite Hs. finished.
  split_and!.
  - done.
  - rewrite live_with_live, decide_True by done. apply lookup_insert_eq.
  - unfold update_events. rewrite Hl, <- Hcf.
    rewrite decide_False; [done|]. intros He.
    pose proof (changed_fields_create resource) as Hid. rewrite He in Hid.
    by apply not_elem_of_empty in Hid.
  - rewrite <- Hcf. apply changed_fields_create.
Qed.

Lemma create_always_notifies_witness :
  let c := __init__ ["port"] in
  wf c ∧ "port" ∈ resource_types c ∧
  (id (port "a" 1 "up") ∉ tombstones c "port") ∧
  live c "port" !! id (port "a" 1 "up") = None ∧
  result_of (record_resource_update "ctx" "port" (port "a" 1 "up") c) = Returns tt.
Proof.
  assert (Hwf : wf (__init__ ["port"])) by apply wf_init.
  assert (Hin : "port" ∈ resource_types (__init__ ["port"]))
    by (vm_compute; set_solver).
  assert (Ht : id (port "a" 1 "up") ∉ tombstones (__init__ ["port"]) "port")
    by (vm_compute; set_solver).
  assert (Hl : live (__init__ ["port"]) "port" !! id (port "a" 1 "up") = None)
    by (vm_compute; reflexivity).
  exact (conj Hwf (conj Hin (conj Ht (conj Hl
    (proj1 (create_always_notifies _ "ctx" "port" _ Hwf Hin Ht Hl)))))).
Defined.

(** A redelivered update is silent: whatever the first delivery did, a
    second delivery of the same resource leaves the cache as the first
    left it and notifies nobody. *)
Theorem redelivered_update_is_silent c context context' rtype resource :
  wf c →
  let x1 := record_resource_update context rtype resource c in
  let x2 := record_resource_update context' rtype resource (state_of x1) in
  state_of x2 = state_of x1 ∧ emitted x2 = [] ∧ result_of x2 = result_of x1.
Proof.
  intros Hwf x1 x2. unfold x2, x1. destruct (tracked_dec c rtype) as [Hin|Hn].
  - rewrite (record_resource_update_tracked c) by done.
    destruct (stale_in c rtype resource) eqn:Hs; finished.
    + rewrite record_resource_update_tracked by done. by rewrite Hs.
    + set (c1 := with_live c rtype (<[id resource := resource]> (live c rtype))).
      assert (Hwf1 : wf c1) by by apply wf_with_live.
      assert (Hl1 : live c1 rtype !! id resource = Some resource).
      { unfold c1. rewrite live_with_live, decide_True by done.
        apply lookup_insert_eq. }
      assert (Hs1 : stale_in c1 rtype resource = false).
      { apply stale_in_false. split.
        - by apply stale_in_false in Hs as [Hs _].
        - rewrite Hl1. intros e [= <-]. lia. }
      rewrite record_resource_update_tracked by done. rewrite Hs1. finished.
      split_and!; [|by unfold update_events;
                       rewrite Hl1, changed_fields_same, decide_True|done].
      unfold c1 at 1. rewrite with_live_twice. f_equal.
      unfold c1. rewrite live_with_live, decide_True by done.
      apply insert_insert_eq.
  - rewrite (record_resource_update_untracked c) by done. finished.
    by rewrite record_resource_update_untracked.
Qed.

Lemma redelivered_update_is_silent_witness :
  let c := __init__ ["port"] in
  let x1 := record_resource_update "ctx" "port" (port "a" 1 "up") c in
  let x2 := record_resource_update "ctx" "port" (port "a" 1 "up") (state_of x1) in
  wf c ∧ state_of x2 = state_of x1 ∧ emitted x2 = [].
Proof.
  assert (Hwf : wf (__init__ ["port"])) by apply wf_init.
  destruct (redelivered_update_is_silent _ "ctx" "ctx" "port" (port "a" 1 "up") Hwf)
    as (H1 & H2 & _).
  exact (conj Hwf (conj H1 H2)).
Defined.

(** ** Invariants of every reachable cache *)

Lemma exec_tombstones c o rt :
  wf c → tombstones c rt ⊆ tombstones (state_of (exec o c)) rt.
Proof.
  intros Hwf. destruct o as [ctx rtype r|ctx rtype rid|bp]; cbn [exec].
  - unfold tombstones. by rewrite update_deleted_ids.
  - destruct (tracked_dec c rtype) as [Hin|Hn].
    + rewrite record_resource_delete_tracked by done. finished.
      rewrite tombstones_with_live, tombstones_with_tombstones.
      case_decide; set_solver.
    + by rewrite record_resource_delete_untracked.
  - destruct (bulk_flood_cache_spec c bp Hwf) as (c' & -> & _ & _ & Hd & _).
    finished. unfold tombstones. by rewrite Hd.
Qed.

(** Tombstones are for ever: no update, delete or bulk load, and no
    sequence of them, removes an id from a tombstone set; the tracked types
    stay the same and the two dicts stay keyed by them. *)
Theorem tombstones_only_grow ops c :
  wf c →
  wf (run_ops ops c) ∧
  resource_types (run_ops ops c) = resource_types c ∧
  ∀ rt, tombstones c rt ⊆ tombstones (run_ops ops c) rt.
Proof.
  revert c. induction ops as [|o ops IH]; intros c Hwf; [done|].
  cbn [run_ops]. destruct (exec_preserves c o Hwf) as [Hwf' Hty].
  destruct (IH _ Hwf') as (Hwf2 & Hty2 & Hsub). split_and!; [done|congruence|].
  intros rt. etrans; [by apply exec_tombstones|apply Hsub].
Qed.

Lemma tombstones_only_grow_witness :
  let c := state_of (exec (Delete "ctx" "port" "a") (__init__ ["port"])) in
  let ops := [BulkFlood (λ _ _, [port "a" 1 "up"]);
              Update "ctx" "port" (port "a" 2 "up")] in
  wf c ∧ "a" ∈ tombstones (run_ops ops c) "port".
Proof.
  assert (Hwf : wf (state_of (exec (Delete "ctx" "port" "a") (__init__ ["port"]))))
    by apply exec_preserves, wf_init.
  assert (Ha : "a" ∈ tombstones (state_of (exec (Delete "ctx" "port" "a")
                                    (__init__ ["port"]))) "port")
    by (vm_compute; set_solver).
  exact (conj Hwf
    (proj2 (proj2 (tombstones_only_grow
                     [BulkFlood (λ _ _, [port "a" 1 "up"]);
                      Update "ctx" "port" (port "a" 2 "up")] _ Hwf)) "port" "a" Ha)).
Defined.

Lemma exec_keyed_by_id c o : wf c → keyed_by_id c → keyed_by_id (state_of (exec o c)).
Proof.
  intros Hwf Hk rt k r. destruct o as [ctx rtype r'|ctx rtype rid|bp]; cbn [exec].
  - destruct (decide ((rt, k) = (rtype, id r'))) as [[= -> ->]|Hne].
    + destruct (tracked_dec c rtype) as [Hin|Hn].
      * rewrite record_resource_update_tracked by done.
        destruct (stale_in c rtype r'); finished; [apply Hk|].
        rewrite live_with_live, decide_True by done.
        rewrite lookup_insert_eq. by intros [= <-].
      * rewrite record_resource_update_untracked by done. apply Hk.
    + rewrite update_elsewhere by done. apply Hk.
  - destruct (tracked_dec c rtype) as [Hin|Hn].
    + rewrite record_resource_delete_tracked by done. finished.
      rewrite live_with_live, live_with_tombstones.
      case_decide as Hrt; [subst rt|apply Hk].
      rewrite lookup_delete. case_decide; [done|apply Hk].
    + rewrite record_resource_delete_untracked by done. apply Hk.
  - destruct (bulk_flood_cache_spec c bp Hwf) as (c' & -> & _ & _ & _ & Hl).
    finished. intros [Hr|[_ Hr]]%Hl; [by apply (Hk rt)|done].
Qed.

(** In every cache reached from the constructor each live entry is stored
    under its own id: what [get_resource_by_id] returns for an id is [None]
    or a resource with that id. *)
Theorem lookup_returns_the_id_asked c rtype rid r :
  reachable c →
  result_of (get_resource_by_id rtype rid c) = Returns (Some r) →
  id r = rid.
Proof.
  intros Hr Hget.
  assert (Hk : keyed_by_id c).
  { clear Hget. induction Hr as [rts|c o Hr IH].
    - intros rt k r'. by rewrite live_init, lookup_empty.
    - apply exec_keyed_by_id; [by apply reachable_wf|done]. }
  apply (Hk rtype). destruct (tracked_dec c rtype) as [Hin|Hn].
  - rewrite get_resource_by_id_tracked in Hget by (done || by apply reachable_wf).
    unfold result_of in Hget; cbn [fst] in Hget. by injection Hget.
  - by rewrite get_resource_by_id_untracked in Hget.
Qed.

Lemma lookup_returns_the_id_asked_witness :
  let c := state_of (exec (Update "ctx" "port" (port "a" 1 "up")) (__init__ ["port"])) in
  reachable c ∧
  result_of (get_resource_by_id "port" "a" c) = Returns (Some (port "a" 1 "up")) ∧
  id (port "a" 1 "up") = "a".
Proof.
  assert (Hr : reachable (state_of (exec (Update "ctx" "port" (port "a" 1 "up"))
                                      (__init__ ["port"]))))
    by apply reach_step, reach_init.
  assert (Hg : result_of (get_resource_by_id "port" "a"
                 (state_of (exec (Update "ctx" "port" (port "a" 1 "up"))
                              (__init__ ["port"]))))
               = Returns (Some (port "a" 1 "up")))
    by (vm_compute; reflexivity).
  exact (conj Hr (conj Hg (lookup_returns_the_id_asked _ "port" "a" _ Hr Hg))).
Defined.

(** ** Fields that disappear *)

(** The diff looks at the incoming resource's fields only.  When every
    field of an accepted incoming resource, [revision_number] and
    [updated_at] apart, has the value the live entry has for it, the entry
    is replaced and nobody is notified, also when the live entry had fields
    that the incoming resource no longer has; a field the live entry lacks
    is always reported. *)
Theorem dropped_fields_are_silent c context rtype existing resource :
  wf c → rtype ∈ resource_types c →
  live c rtype !! id resource = Some existing →
  id resource ∉ tombstones c rtype →
  revision_number existing ≤ revision_number resource →
  (∀ k v, to_dict resource !! k = Some v →
          k ≠ "revision_number" → k ≠ "updated_at" →
          to_dict existing !! k = Some v) →
  let x := record_resource_update context rtype resource c in
  emitted x = [] ∧
  live (state_of x) rtype !! id resource = Some resource ∧
  (∀ k, k ∉ dom (to_dict resource) →
        k ∉ _get_changed_fields (Some existing) resource) ∧
  (∀ other k, k ∈ dom (to_dict resource) → k ∉ dom (to_dict other) →
        k ≠ "revision_number" → k ≠ "updated_at" →
        k ∈ _get_changed_fields (Some other) resource).
Proof.
  intros Hwf Hin Hl Ht Hrev Hsame x.
  assert (Hs : stale_in c rtype resource = false).
  { apply stale_in_false. split; [done|]. intros e He.
    rewrite Hl in He. by injection He as <-. }
  assert (Hcf : _get_changed_fields (Some existing) resource = ∅).
  { apply set_eq. intros k. rewrite changed_fields_spec. split.
    - intros (Hd & Hr & Hu & Hv). exfalso. apply (Hv existing); [done|].
      apply elem_of_dom in Hd as [v Hv']. rewrite Hv'. by apply Hsame.
    - intros H. by apply not_elem_of_empty in H. }
  unfold x. rewrite record_resource_update_tracked by done. rewrite Hs. finished.
  split_and!.
  - unfold update_events. by rewrite Hl, Hcf, decide_True.
  - rewrite live_with_live, decide_True by done. apply lookup_insert_eq.
  - intros k Hk H%changed_fields_spec. by destruct H as (? & _).
  - intros other k Hk Hno Hr Hu. apply changed_fields_spec.
    split_and!; try done. intros old [= <-].
    apply not_elem_of_dom in Hno. apply elem_of_dom in Hk as [v Hv].
    by rewrite Hno, Hv.
Qed.

Lemma dropped_fields_are_silent_witness :
  let existing := thing "a" 1 {[ "name" := VStr "x"; "status" := VStr "up" ]} in
  let resource := thing "a" 2 {[ "name" := VStr "x" ]} in
  let c := state_of (record_resource_update "ctx" "port" existing (__init__ ["port"])) in
  let x := record_resource_update "ctx" "port" resource c in
  wf c ∧ "port" ∈ resource_types c ∧
  live c "port" !! id resource = Some existing ∧
  emitted x = [] ∧ live (state_of x) "port" !! id resource = Some resource.
Proof.
  set (existing := thing "a" 1 {[ "name" := VStr "x"; "status" := VStr "up" ]}).
  set (resource := thing "a" 2 {[ "name" := VStr "x" ]}).
  set (c := state_of (record_resource_update "ctx" "port" existing (__init__ ["port"]))).
  assert (Hwf : wf c) by apply update_preserves, wf_init.
  assert (Hin : "port" ∈ resource_types c) by (vm_compute; set_solver).
  assert (Hl : live c "port" !! id resource = Some existing)
    by (vm_compute; reflexivity).
  assert (Ht : id resource ∉ tombstones c "port") by (vm_compute; set_solver).
  assert (Hrev : revision_number existing ≤ revision_number resource)
    by (simpl; lia).
  assert (Hsame : ∀ k v, to_dict resource !! k = Some v →
            k ≠ "revision_number" → k ≠ "updated_at" →
            to_dict existing !! k = Some v).
  { intros k v Hv Hr Hu. revert Hv.
    unfold to_dict, resource, existing, thing; cbn [id revision_number updated_at extra].
    rewrite !lookup_insert, !lookup_singleton.
    repeat case_decide; congruence. }
  destruct (dropped_fields_are_silent c "ctx" "port" existing resource
              Hwf Hin Hl Ht Hrev Hsame) as (H1 & H2 & _).
  cbv zeta. exact (conj Hwf (conj Hin (conj Hl (conj H1 H2)))).
Defined.

(** ** Batches *)

Lemma resource_change_handler_tracked context rtype resources ev c :
  wf c → rtype ∈ resource_types c →
  resource_change_handler context rtype resources ev c
    = (Returns tt, run_ops (handler_ops context rtype resources ev) c,
       emitted_ops (handler_ops context rtype resources ev) c).
Proof.
  revert c. induction resources as [|r rs IH]; intros c Hwf Hin; [done|].
  unfold resource_change_handler. cbn [for_each handler_ops map run_ops emitted_ops].
  fold (handler_ops context rtype rs ev).
  fold (resource_change_handler context rtype rs ev).
  unfold bind.
  set (o := match ev with
            | DELETED => Delete context rtype (id r)
            | _ => Update context rtype r
            end).
  assert (Hbody : match ev with
                  | DELETED => record_resource_delete context rtype (id r)
                  | _ => record_resource_update context rtype r
                  end = exec o) by by destruct ev.
  rewrite Hbody.
  assert (Hres : result_of (exec o c) = Returns tt).
  { unfold o. destruct ev; cbn [exec].
    - rewrite record_resource_update_tracked by done.
      by destruct (stale_in c rtype r).
    - rewrite record_resource_update_tracked by done.
      by destruct (stale_in c rtype r).
    - by rewrite record_resource_delete_tracked. }
  destruct (exec_preserves c o Hwf) as [Hwf' Hty].
  specialize (IH (state_of (exec o c)) Hwf').
  rewrite Hty in IH. specialize (IH Hin).
  destruct (exec o c) as [[res c1] out1]. unfold result_of in Hres; cbn in Hres.
  subst res. unfold state_of, emitted in *; cbn [fst snd] in *.
  by rewrite IH.
Qed.

(** A batch of deletions: on a tracked type, [resource_change_handler]
    with [DELETED] returns, notifies once per resource of the batch, in the
    batch's order, and afterwards every id of the batch is tombstoned and
    not live. *)
Theorem deleted_batch_buries_all c context rtype resources :
  wf c → rtype ∈ resource_types c →
  let x := resource_change_handler context rtype resources DELETED c in
  result_of x = Returns tt ∧
  notified_id <$> emitted x = id <$> resources ∧
  (∀ n, n ∈ emitted x → ∃ existing rid, n = AFTER_DELETE rtype context existing rid) ∧
  (∀ r, r ∈ resources →
        id r ∈ tombstones (state_of x) rtype ∧
        live (state_of x) rtype !! id r = None).
Proof.
  intros Hwf Hin x. unfold x.
  rewrite resource_change_handler_tracked by done. finished.
  split; [done|]. clear x. revert c Hwf Hin.
  induction resources as [|r rs IH]; intros c Hwf Hin.
  - split_and!; [done|by intros n ?%elem_of_nil|by intros r ?%elem_of_nil].
  - cbn [handler_ops map run_ops emitted_ops exec].
    fold (handler_ops context rtype rs DELETED).
    destruct (delete_preserves c context rtype (id r) Hwf) as [Hwf' Hty].
    assert (Hin' : rtype ∈ resource_types
                     (state_of (record_resource_delete context rtype (id r) c)))
      by by rewrite Hty.
    destruct (IH _ Hwf' Hin') as (Hids & Hshape & Hbur).
    pose proof (delete_buries c context rtype (id r) Hwf Hin) as Hb.
    rewrite (record_resource_delete_tracked c) in * by done.
    revert Hids Hshape Hbur Hb Hwf' Hin'. finished. intros Hids Hshape Hbur Hb Hwf' Hin'.
    split_and!.
    + cbn. by rewrite Hids.
    + intros n [->|Hn]%elem_of_cons; [by eexists _, _|by apply Hshape].
    + intros r' [->|Hr']%elem_of_cons; [|by apply Hbur].
      destruct (push_ops_keep_buried (handler_ops context rtype rs DELETED)
                  _ rtype (id r) (handler_ops_push _ _ _ _) Hwf' Hin' Hb)
        as (_ & _ & Hb'). exact Hb'.
Qed.

Lemma deleted_batch_buries_all_witness :
  let c := state_of (record_resource_update "ctx" "port" (port "a" 1 "up")
                       (__init__ ["port"])) in
  let x := resource_change_handler "ctx" "port"
             [port "a" 1 "up"; port "b" 1 "up"] DELETED c in
  wf c ∧ "port" ∈ resource_types c ∧
  notified_id <$> emitted x = ["a"; "b"].
Proof.
  set (c := state_of (record_resource_update "ctx" "port" (port "a" 1 "up")
                        (__init__ ["port"]))).
  assert (Hwf : wf c) by apply update_preserves, wf_init.
  assert (Hin : "port" ∈ resource_types c) by (vm_compute; set_solver).
  destruct (deleted_batch_buries_all c "ctx" "port"
              [port "a" 1 "up"; port "b" 1 "up"] Hwf Hin) as (_ & H & _).
  cbv zeta. exact (conj Hwf (conj Hin H)).
Defined.

(** A batch for a type the cache does not track: the first resource
    raises [KeyError], the rest of the batch is not looked at, the cache is
    unchanged and nobody is notified; an empty batch returns normally. *)
Theorem untracked_batch c context rtype resources ev :
  wf c → rtype ∉ resource_types c →
  resource_change_handler context rtype resources ev c =
    (match resources with
     | [] => Returns tt
     | _ :: _ => Raises (KeyError rtype)
     end, c, []).
Proof.
  intros Hwf Hn. destruct resources as [|r rs]; [done|].
  unfold resource_change_handler. cbn [for_each]. unfold bind.
  destruct ev.
  - by rewrite record_resource_update_untracked.
  - by rewrite record_resource_update_untracked.
  - by rewrite record_resource_delete_untracked.
Qed.

Lemma untracked_batch_witness :
  let c := __init__ ["port"] in
  wf c ∧ ("network" ∉ resource_types c) ∧
  resource_change_handler "ctx" "network" [port "a" 1 "up"; port "b" 1 "up"] UPDATED c
    = (Raises (KeyError "network"), c, []).
Proof.
  assert (Hwf : wf (__init__ ["port"])) by apply wf_init.
  assert (Hn : "network" ∉ resource_types (__init__ ["port"]))
    by (cbn; set_solver).
  exact (conj Hwf (conj Hn
    (untracked_batch _ "ctx" "network" [port "a" 1 "up"; port "b" 1 "up"] UPDATED
       Hwf Hn))).
Defined.

(** ** Delivery order *)

Lemma updates_keep_highest rs c context rtype rid e :
  wf c → rtype ∈ resource_types c → rid ∉ tombstones c rtype →
  Forall (λ r, id r = rid) rs →
  live c rtype !! rid = Some e →
  ∃ r, live (run_ops (handler_ops context rtype rs UPDATED) c) rtype !! rid = Some r ∧
       (r ∈ rs ∨ r = e) ∧
       (∀ r', r' ∈ rs → revision_number r' ≤ revision_number r) ∧
       revision_number e ≤ revision_number r.
Proof.
  intros Hwf Hin Ht Hids. revert c e Hwf Hin Ht.
  induction Hids as [|r0 rs Hid0 _ IH]; intros c e Hwf Hin Ht Hl.
  - exists e. split_and!; [done|by right|by intros r' ?%elem_of_nil|lia].
  - cbn [handler_ops map run_ops exec]. fold (handler_ops context rtype rs UPDATED).
    rewrite record_resource_update_tracked by done.
    destruct (stale_in c rtype r0) eqn:Hs; finished.
    + apply stale_in_true in Hs as [Hs|(e' & He' & Hlt)];
        [by rewrite Hid0 in Hs|].
      rewrite Hid0, Hl in He'. injection He' as <-.
      destruct (IH c e Hwf Hin Ht Hl) as (r & Hr & Hor & Hmax & He).
      exists r. split_and!; [done| |by intros r' [->|Hr']%elem_of_cons; [lia|apply Hmax]|done].
      destruct Hor as [Hor| ->]; [left; by right|by right].
    + apply stale_in_false in Hs as [_ Hs].
      specialize (Hs e). rewrite Hid0 in Hs. specialize (Hs Hl).
      rewrite Hid0.
      destruct (IH (with_live c rtype (<[rid := r0]> (live c rtype))) r0)
        as (r & Hr & Hor & Hmax & He); [by apply wf_with_live|done|done| |].
      { rewrite live_with_live, decide_True by done. apply lookup_insert_eq. }
      exists r. split_and!; [done| |by intros r' [->|Hr']%elem_of_cons; [lia|apply Hmax]|lia].
      destruct Hor as [Hor| ->]; left; [by right|left].
Qed.

(** Delivery order does not decide who wins: after a batch of creates or
    updates that all carry one id, not tombstoned, the cache holds for that
    id a resource of the batch (or the entry it held before) whose revision
    number is the highest of the batch and not lower than the one held
    before. *)
Theorem batch_keeps_highest_revision c context rtype rid resources ev :
  wf c → rtype ∈ resource_types c → rid ∉ tombstones c rtype →
  ev ≠ DELETED →
  Forall (λ r, id r = rid) resources →
  resources ≠ [] →
  let c' := state_of (resource_change_handler context rtype resources ev c) in
  ∃ r, live c' rtype !! rid = Some r ∧
       (r ∈ resources ∨ live c rtype !! rid = Some r) ∧
       (∀ r', r' ∈ resources → revision_number r' ≤ revision_number r) ∧
       (∀ e, live c rtype !! rid = Some e → revision_number e ≤ revision_number r).
Proof.
  intros Hwf Hin Ht Hev Hids Hne c'. unfold c'.
  rewrite resource_change_handler_runs by done.
  assert (Hops : handler_ops context rtype resources ev
                 = handler_ops context rtype resources UPDATED)
    by by destruct ev.
  rewrite Hops. clear Hops Hev c'.
  destruct (live c rtype !! rid) as [e|] eqn:Hl.
  - destruct (updates_keep_highest resources c context rtype rid e)
      as (r & Hr & Hor & Hmax & He); try done.
    exists r. split_and!; [done| |done|by intros e' [= <-]].
    destruct Hor as [Hor| ->]; [by left|by right].
  - destruct resources as [|r0 rs]; [done|].
    apply Forall_cons in Hids as [Hid0 Hids].
    cbn [handler_ops map run_ops exec]. fold (handler_ops context rtype rs UPDATED).
    rewrite record_resource_update_tracked by done.
    assert (Hs : stale_in c rtype r0 = false).
    { apply stale_in_false. rewrite Hid0, Hl. split; [done|]. by intros e. }
    rewrite Hs. finished. rewrite Hid0.
    destruct (updates_keep_highest rs
                (with_live c rtype (<[rid := r0]> (live c rtype)))
                context rtype rid r0)
      as (r & Hr & Hor & Hmax & He); [by apply wf_with_live|done|done|done| |].
    { rewrite live_with_live, decide_True by done. apply lookup_insert_eq. }
    exists r. split_and!; [done| | |done].
    + left. destruct Hor as [Hor| ->]; [by right|left].
    + intros r' [->|Hr']%elem_of_cons; [lia|by apply Hmax].
Qed.

Lemma batch_keeps_highest_revision_witness :
  let c := __init__ ["port"] in
  let resources := [port "a" 5 "up"; port "a" 3 "down"; port "a" 7 "down"] in
  let c' := state_of (resource_change_handler "ctx" "port" resources UPDATED c) in
  wf c ∧ "port" ∈ resource_types c ∧ ("a" ∉ tombstones c "port") ∧
  ∃ r, live c' "port" !! "a" = Some r ∧
       ∀ r', r' ∈ resources → revision_number r' ≤ revision_number r.
Proof.
  assert (Hwf : wf (__init__ ["port"])) by apply wf_init.
  assert (Hin : "port" ∈ resource_types (__init__ ["port"]))
    by (vm_compute; set_solver).
  assert (Ht : "a" ∉ tombstones (__init__ ["port"]) "port")
    by (vm_compute; set_solver).
  assert (Hev : UPDATED ≠ DELETED) by discriminate.
  assert (Hids : Forall (λ r, id r = "a")
            [port "a" 5 "up"; port "a" 3 "down"; port "a" 7 "down"])
    by (repeat constructor).
  assert (Hne : [port "a" 5 "up"; port "a" 3 "down"; port "a" 7 "down"] ≠ [])
    by discriminate.
  destruct (batch_keeps_highest_revision _ "ctx" "port" "a" _ UPDATED
              Hwf Hin Ht Hev Hids Hne) as (r & Hr & _ & Hmax & _).
  exact (conj Hwf (conj Hin (conj Ht (ex_intro _ r (conj Hr Hmax))))).
Defined.

(** ** What the bulk load stores *)

Lemma flood_lookup_last d pulled k :
  flood d pulled !! k =
    match last_pulled k pulled with
    | Some r => Some r
    | None => d !! k
    end.
Proof.
  revert d. induction pulled as [|r pulled IH]; intros d; [done|].
  cbn [flood foldl]. fold (flood (<[id r := r]> d) pulled). rewrite IH.
  unfold last_pulled. rewrite filter_cons.
  destruct (decide (id r = k)) as [<-|Hne].
  - rewrite lookup_insert_eq, last_cons.
    by destruct (last (filter (λ r0, id r0 = id r) pulled)).
  - by rewrite lookup_insert_ne.
Qed.

Lemma flood_again d pulled : flood (flood d pulled) pulled = flood d pulled.
Proof.
  apply map_eq. intros k. rewrite !flood_lookup_last.
  by destruct (last_pulled k pulled).
Qed.

Lemma flood_types_exact c (bulk_pull : Context → string → list Resource) context
    (rts : list string) :
  wf c → (∀ rt, rt ∈ rts → rt ∈ resource_types c) →
  ∃ c',
    for_each rts (λ rtype,
      for_each (bulk_pull context rtype) (λ resource,
        type_cache_setitem rtype (id resource) resource)) c
      = (Returns tt, c', []) ∧
    ∀ rt, live c' rt =
      if decide (rt ∈ rts) then flood (live c rt) (bulk_pull context rt)
      else live c rt.
Proof.
  revert c. induction rts as [|rt rts IH]; intros c Hwf Hsub.
  - exists c. split; [done|]. intros rt. rewrite decide_False; [done|].
    by intros ?%elem_of_nil.
  - cbn [for_each]. unfold bind at 1.
    rewrite flood_one_type; [|done|apply Hsub; by left].
    set (c1 := with_live c rt (flood (live c rt) (bulk_pull context rt))).
    assert (Hwf1 : wf c1) by (apply wf_with_live; [done|apply Hsub; by left]).
    destruct (IH c1 Hwf1) as (c' & Hrun & Hlive).
    { intros rt' Hrt'. apply Hsub. by right. }
    exists c'. rewrite Hrun. split; [done|].
    intros rt'. rewrite Hlive. unfold c1. rewrite live_with_live.
    destruct (decide (rt = rt')) as [<-|Hne].
    + rewrite (decide_True (P := rt ∈ rt :: rts)) by left.
      case_decide; [apply flood_again|done].
    + destruct (decide (rt' ∈ rts)) as [Hi|Hni].
      * by rewrite (decide_True (P := rt' ∈ rt :: rts)) by by right.
      * rewrite (decide_False (P := rt' ∈ rt :: rts)); [done|].
        by intros [->|?]%elem_of_cons.
Qed.

Lemma bulk_flood_cache_live c bulk_pull rt :
  wf c →
  live (state_of (bulk_flood_cache bulk_pull c)) rt =
    if decide (rt ∈ resource_types c)
    then flood (live c rt) (bulk_pull get_admin_context rt)
    else live c rt.
Proof.
  intros Hwf.
  destruct (flood_types_exact c bulk_pull get_admin_context (resource_types c) Hwf)
    as (c' & Hrun & Hlive); [done|].
  rewrite bulk_flood_cache_answers, Hrun. finished. apply Hlive.
Qed.

(** The bulk load stores what it is given.  On a tracked type, after
    [bulk_flood_cache] the cache holds for an id the last pulled resource
    with that id, whatever revision was stored before and whether or not
    the id is tombstoned, and for an id the answer does not mention what it
    held before; tombstones are untouched and nobody is notified. *)
Theorem bulk_load_stores_last_pulled c bulk_pull rtype rid :
  wf c → rtype ∈ resource_types c →
  let x := bulk_flood_cache bulk_pull c in
  result_of x = Returns tt ∧
  emitted x = [] ∧
  _deleted_ids_by_type (state_of x) = _deleted_ids_by_type c ∧
  live (state_of x) rtype !! rid =
    match last_pulled rid (bulk_pull get_admin_context rtype) with
    | Some r => Some r
    | None => live c rtype !! rid
    end.
Proof.
  intros Hwf Hin x. unfold x.
  rewrite bulk_flood_cache_live, decide_True, flood_lookup_last by done.
  by destruct (bulk_flood_cache_spec c bulk_pull Hwf) as (c' & -> & _ & _ & Hd & _).
Qed.

Lemma bulk_load_stores_last_pulled_witness :
  let c := state_of (record_resource_update "ctx" "port" (port "a" 9 "up")
                       (__init__ ["port"])) in
  let pulled := λ (_ : Context) (_ : string),
                  [port "a" 1 "down"; port "b" 1 "up"; port "a" 2 "down"] in
  wf c ∧ "port" ∈ resource_types c ∧
  live (state_of (bulk_flood_cache pulled c)) "port" !! "a" = Some (port "a" 2 "down").
Proof.
  set (c := state_of (record_resource_update "ctx" "port" (port "a" 9 "up")
                        (__init__ ["port"]))).
  assert (Hwf : wf c) by apply update_preserves, wf_init.
  assert (Hin : "port" ∈ resource_types c) by (vm_compute; set_solver).
  destruct (bulk_load_stores_last_pulled c
              (λ _ _, [port "a" 1 "down"; port "b" 1 "up"; port "a" 2 "down"])
              "port" "a" Hwf Hin) as (_ & _ & _ & H).
  cbv zeta. exact (conj Hwf (conj Hin H)).
Defined.

(** A bulk load that gets the same answer again changes nothing more: the
    cache after two loads is the cache after one. *)
Theorem bulk_load_twice c bulk_pull :
  wf c →
  let x1 := bulk_flood_cache bulk_pull c in
  let x2 := bulk_flood_cache bulk_pull (state_of x1) in
  state_of x2 = state_of x1 ∧ result_of x2 = Returns tt ∧ emitted x2 = [].
Proof.
  intros Hwf x1 x2.
  destruct (bulk_flood_cache_spec c bulk_pull Hwf)
    as (c1 & Hrun1 & Hwf1 & Hty1 & Hd1 & _).
  destruct (bulk_flood_cache_spec c1 bulk_pull Hwf1)
    as (c2 & Hrun2 & Hwf2 & Hty2 & Hd2 & _).
  assert (Hl : ∀ rt, live c2 rt = live c1 rt).
  { intros rt.
    pose proof (bulk_flood_cache_live c bulk_pull rt Hwf) as H1.
    pose proof (bulk_flood_cache_live c1 bulk_pull rt Hwf1) as H2.
    rewrite Hrun1 in H1. rewrite Hrun2 in H2. revert H1 H2. finished.
    intros H1 H2. rewrite H2, Hty1, H1.
    destruct (decide (rt ∈ resource_types c)); [apply flood_again|done]. }
  unfold x2, x1. rewrite Hrun1. finished. rewrite Hrun2. finished.
  split; [|done].
  destruct c1 as [ts1 cs1 ds1], c2 as [ts2 cs2 ds2]. cbn in *. f_equal; try done.
  apply map_eq. intros rt.
  destruct Hwf1 as [Hc1 _], Hwf2 as [Hc2 _]. cbn in *.
  specialize (Hl rt). unfold live in Hl. cbn in Hl.
  destruct (cs1 !! rt) as [d1|] eqn:E1, (cs2 !! rt) as [d2|] eqn:E2; cbn in Hl.
  - by rewrite Hl.
  - apply not_elem_of_dom in E2. rewrite Hc2, Hty2, <- Hc1 in E2.
    by apply not_elem_of_dom in E2; rewrite E1 in E2.
  - apply not_elem_of_dom in E1. rewrite Hc1, <- Hty2, <- Hc2 in E1.
    by apply not_elem_of_dom in E1; rewrite E2 in E1.
  - done.
Qed.

Lemma bulk_load_twice_witness :
  let c := __init__ ["port"; "network"] in
  let pulled := λ (_ : Context) (rt : string),
                  [port (rt +:+ "-1") 1 "up"; port (rt +:+ "-2") 1 "up"] in
  let x1 := bulk_flood_cache pulled c in
  wf c ∧ state_of (bulk_flood_cache pulled (state_of x1)) = state_of x1.
Proof.
  assert (Hwf : wf (__init__ ["port"; "network"])) by apply wf_init.
  exact (conj Hwf (proj1 (bulk_load_twice _
    (λ _ rt, [port (rt +:+ "-1") 1 "up"; port (rt +:+ "-2") 1 "up"]) Hwf))).
Defined.

(** ** Searches: empty filters, failing filters, raising matchers *)

Lemma comprehension_returns matcher l rs :
  comprehension matcher l = Returns rs →
  (∀ r, r ∈ l → ∃ b, matcher r = Returns b) ∧
  (∀ r, r ∈ rs ↔ r ∈ l ∧ matcher r = Returns true).
Proof.
  revert rs. induction l as [|r l IH]; intros rs; cbn [comprehension].
  - intros [= <-]. split; [by intros r ?%elem_of_nil|].
    intros r. split; [by intros ?%elem_of_nil|by intros [?%elem_of_nil _]].
  - destruct (matcher r) as [b|e'] eqn:Hm; [|done].
    destruct (comprehension matcher l) as [rs'|e'']; [|done].
    intros [= <-]. destruct (IH rs' eq_refl) as [Hall Hmem]. split.
    + intros r' [->|Hr']%elem_of_cons; [by exists b|by apply Hall].
    + intros r'. destruct b.
      * rewrite !elem_of_cons, Hmem. split.
        -- intros [->|[H1 H2]]; [by split; [left|]|by split; [right|]].
        -- intros [[->|H1] H2]; [by left|by right].
      * rewrite Hmem, elem_of_cons. split.
        -- intros [H1 H2]. by split; [right|].
        -- intros [[->|H1] H2]; [congruence|done].
Qed.

(** A matcher that raises: [match_resources_with_func] on a tracked type
    returns exactly when the matcher returns on every live resource, and
    then the result holds the live resources the matcher accepts; otherwise
    the exception that leaves the call is one the matcher raised on a live
    resource.  The cache is unchanged either way. *)
Theorem matcher_exceptions_propagate c rtype matcher :
  wf c → rtype ∈ resource_types c →
  let x := match_resources_with_func rtype matcher c in
  state_of x = c ∧ emitted x = [] ∧
  (∀ e, result_of x = Raises e →
        ∃ k r, live c rtype !! k = Some r ∧ matcher r = Raises e) ∧
  (∀ l, result_of x = Returns l →
        (∀ k r, live c rtype !! k = Some r → ∃ b, matcher r = Returns b) ∧
        (∀ r, r ∈ l ↔ (∃ k, live c rtype !! k = Some r) ∧ matcher r = Returns true)).
Proof.
  intros Hwf Hin x. unfold x, match_resources_with_func, bind, lift.
  rewrite _type_cache_tracked by done. finished.
  assert (Hvals : ∀ r, r ∈ map snd (map_to_list (live c rtype))
                       ↔ ∃ k, live c rtype !! k = Some r).
  { intros r. rewrite list_elem_of_In, in_map_iff. split.
    - intros ([k r'] & <- & Hkr%list_elem_of_In%elem_of_map_to_list). by exists k.
    - intros [k Hk]. exists (k, r). split; [done|].
      by apply list_elem_of_In, elem_of_map_to_list. }
  split_and!; try done.
  - intros e He. apply comprehension_raises in He as (r & Hr & Hm).
    apply Hvals in Hr as [k Hk]. by exists k, r.
  - intros l Hl. apply comprehension_returns in Hl as [Hall Hmem]. split.
    + intros k r Hk. apply Hall, Hvals. by exists k.
    + intros r. by rewrite Hmem, Hvals.
Qed.

Lemma matcher_exceptions_propagate_witness :
  let c := run_ops [Update "ctx" "port" (zone "p1" "A")] (__init__ ["port"]) in
  let matcher := λ _ : Resource, @Raises bool (RuntimeError "boom") in
  wf c ∧ "port" ∈ resource_types c ∧
  state_of (match_resources_with_func "port" matcher c) = c.
Proof.
  set (c := run_ops [Update "ctx" "port" (zone "p1" "A")] (__init__ ["port"])).
  assert (Hwf : wf c) by apply update_preserves, wf_init.
  assert (Hin : "port" ∈ resource_types c) by (vm_compute; set_solver).
  cbv zeta. exact (conj Hwf (conj Hin
    (proj1 (matcher_exceptions_propagate c "port"
              (λ _, Raises (RuntimeError "boom")) Hwf Hin)))).
Defined.


(** [get_resources] with no filters returns every live resource of the
    type, one entry per live id; with filters it can fail only with the
    [AttributeError] of a filter key that some live resource does not
    have. *)
Theorem get_resources_edges c rtype class_attrs :
  wf c → rtype ∈ resource_types c →
  (∃ l, get_resources class_attrs rtype [] c = (Returns l, c, []) ∧
        l ≡ₚ (map_to_list (live c rtype)).*2 ∧
        length l = size (live c rtype)) ∧
  (∀ filters e,
     result_of (get_resources class_attrs rtype filters c) = Raises e →
     ∃ key r k v, live c rtype !! key = Some r ∧ (k, v) ∈ filters ∧
                  to_dict r !! k = None ∧ e = AttributeError k).
Proof.
  intros Hwf Hin. split.
  - destruct (match_resources_with_func_tracked c rtype
                (λ o, all_match class_attrs o []) (λ _, true) Hwf Hin)
      as (l & Hl & Hperm & _); [done|].
    assert (Hsel : selected (λ _, true) (live c rtype) = live c rtype).
    { unfold selected. by apply map_filter_id. }
    rewrite Hsel in Hperm. exists l. split_and!; [done|done|].
    by rewrite Hperm, length_fmap, length_map_to_list.
  - intros filters e He.
    unfold get_resources in He.
    apply match_resources_with_func_raises in He as (key & r & Hr & Hm); [|done..].
    apply all_match_raises in Hm as (k & v & Hkv & Hk & _ & ->).
    by exists key, r, k, v.
Qed.

Lemma get_resources_edges_witness :
  let c := run_ops [Update "ctx" "port" (zone "p1" "A");
                    Update "ctx" "port" (zone "p2" "B")] (__init__ ["port"]) in
  wf c ∧ "port" ∈ resource_types c ∧
  ∃ l, get_resources {["to_dict"; "get"]} "port" [] c = (Returns l, c, []) ∧
       length l = size (live c "port").
Proof.
  set (c := run_ops [Update "ctx" "port" (zone "p1" "A");
                     Update "ctx" "port" (zone "p2" "B")] (__init__ ["port"])).
  assert (Hwf : wf c).
  { unfold c; cbn [run_ops exec]. repeat apply update_preserves. apply wf_init. }
  assert (Hin : "port" ∈ resource_types c) by (vm_compute; set_solver).
  destruct (proj1 (get_resources_edges c "port" {["to_dict"; "get"]} Hwf Hin))
    as (l & Hl & _ & Hlen).
  cbv zeta. exact (conj Hwf (conj Hin (ex_intro _ l (conj Hl Hlen)))).
Defined.

(** ** After a delete *)

(** Once an id is deleted, every later update for it is dropped: after
    [record_resource_delete] and any further updates and deletes, an update
    that carries the id returns without changing the cache and without
    notifying, whatever its revision number and fields. *)
Theorem updates_after_delete_are_dropped c context context' rtype rid ops resource :
  wf c → rtype ∈ resource_types c → Forall is_push ops →
  id resource = rid →
  let c' := run_ops ops (state_of (record_resource_delete context rtype rid c)) in
  record_resource_update context' rtype resource c' = (Returns tt, c', []).
Proof.
  intros Hwf Hin Hops Hid c'.
  destruct (delete_preserves c context rtype rid Hwf) as [Hwf1 Hty1].
  destruct (push_ops_keep_buried ops _ rtype rid Hops Hwf1)
    as (Hwf2 & Hin2 & Ht & _); [by rewrite Hty1|by apply delete_buries|].
  fold c' in Hwf2, Hin2, Ht.
  rewrite record_resource_update_tracked by done.
  assert (Hs : stale_in c' rtype resource = true).
  { apply stale_in_true. left. by rewrite Hid. }
  by rewrite Hs.
Qed.

Lemma updates_after_delete_are_dropped_witness :
  let c := __init__ ["port"] in
  let ops := [Update "ctx" "port" (port "b" 1 "up"); Delete "ctx" "port" "b"] in
  let c' := run_ops ops (state_of (record_resource_delete "ctx" "port" "a" c)) in
  wf c ∧ "port" ∈ resource_types c ∧ Forall is_push ops ∧
  record_resource_update "ctx" "port" (port "a" 99 "up") c' = (Returns tt, c', []).
Proof.
  assert (Hwf : wf (__init__ ["port"])) by apply wf_init.
  assert (Hin : "port" ∈ resource_types (__init__ ["port"]))
    by (vm_compute; set_solver).
  assert (Hops : Forall is_push [Update "ctx" "port" (port "b" 1 "up");
                                 Delete "ctx" "port" "b"])
    by repeat constructor.
  exact (conj Hwf (conj Hin (conj Hops
    (updates_after_delete_are_dropped _ "ctx" "ctx" "port" "a" _ (port "a" 99 "up")
       Hwf Hin Hops eq_refl)))).
Defined.

Lemma run_ops_wf ops c : wf c → wf (run_ops ops c).
Proof.
  revert c. induction ops as [|o ops IH]; intros c Hwf; [done|].
  cbn [run_ops]. by apply IH, exec_preserves.
Qed.

(** From the constructor on, updates and deletes alone never leave a
    tombstoned id live, and neither does a bulk load whose answer carries
    no tombstoned id. *)
Theorem push_path_keeps_deleted_ids_out rts ops :
  Forall is_push ops →
  let c := run_ops ops (__init__ rts) in
  disjoint_inv c ∧
  ∀ bulk_pull,
    (∀ rt r, r ∈ bulk_pull get_admin_context rt → id r ∉ tombstones c rt) →
    disjoint_inv (state_of (bulk_flood_cache bulk_pull c)).
Proof.
  intros Hops c.
  assert (Hd : disjoint_inv c)
    by (apply push_ops_keep_disjoint; [done|apply wf_init|apply disjoint_init]).
  split; [done|]. intros bulk_pull Hfresh.
  apply bulk_flood_keeps_disjoint; [|done|done].
  apply run_ops_wf, wf_init.
Qed.

Lemma push_path_keeps_deleted_ids_out_witness :
  let ops := [Update "ctx" "port" (port "a" 1 "up"); Delete "ctx" "port" "a";
              Update "ctx" "port" (port "a" 2 "up")] in
  Forall is_push ops ∧ disjoint_inv (run_ops ops (__init__ ["port"])).
Proof.
  assert (Hops : Forall is_push [Update "ctx" "port" (port "a" 1 "up");
                                 Delete "ctx" "port" "a";
                                 Update "ctx" "port" (port "a" 2 "up")])
    by repeat constructor.
  exact (conj Hops (proj1 (push_path_keeps_deleted_ids_out ["port"] _ Hops))).
Defined.

(** ** Untracked types, in general *)

Lemma untracked_type_errors_general_witness :
  let c := state_of (record_resource_update "ctx" "port" (port "a" 1 "up")
                       (__init__ ["port"])) in
  wf c ∧ ("network" ∉ resource_types c) ∧
  record_resource_delete "ctx" "network" "a" c = (Raises (KeyError "network"), c, []).
Proof.
  set (c := state_of (record_resource_update "ctx" "port" (port "a" 1 "up")
                        (__init__ ["port"]))).
  assert (Hwf : wf c) by apply update_preserves, wf_init.
  assert (Hn : "network" ∉ resource_types c).
  { unfold c. rewrite (proj2 (update_preserves _ _ _ _ (wf_init _))). cbn. set_solver. }
  cbv zeta. exact (conj Hwf (conj Hn
    (proj2 (proj2 (proj2 (untracked_type_errors_general c "network" Hwf Hn)))
       "ctx" "a"))).
Defined.

(** ** A pull that fails *)

Lemma for_each_app {A} (l1 l2 : list A) (body : A → M unit) c :
  for_each (l1 ++ l2) body c = (run for_each l1 body ; for_each l2 body) c.
Proof.
  revert c. induction l1 as [|x l1 IH]; intros c.
  - cbn. unfold bind, ret. by destruct (for_each l2 body c) as [[r c'] out].
  - cbn [app for_each]. unfold bind.
    destruct (body x c) as [[[[]|e] c1] out1]; [|done].
    rewrite IH. unfold bind.
    destruct (for_each l1 body c1) as [[[[]|e] c2] out2]; [|done].
    destruct (for_each l2 body c2) as [[r c3] out3].
    by rewrite app_assoc.
Qed.

(** When the pull of one type fails, the exception leaves
    [bulk_flood_cache] and partial success is kept: the types before it
    in [resource_types] hold what their pulls answered, the failing type
    and the types after it are as they were, the tombstones are untouched
    and nobody is notified. *)
Theorem bulk_load_failure_keeps_partial c bulk_pull answers before rtype after e :
  wf c →
  resource_types c = (before ++ rtype :: after)%list →
  (∀ rt, rt ∈ before →
         bulk_pull get_admin_context rt = Returns (answers get_admin_context rt)) →
  bulk_pull get_admin_context rtype = Raises e →
  let x := bulk_flood_cache_from bulk_pull c in
  result_of x = Raises e ∧
  emitted x = [] ∧
  _deleted_ids_by_type (state_of x) = _deleted_ids_by_type c ∧
  resource_types (state_of x) = resource_types c ∧
  ∀ rt, live (state_of x) rt =
          if decide (rt ∈ before)
          then flood (live c rt) (answers get_admin_context rt)
          else live c rt.
Proof.
  intros Hwf Hty Hans Hfail x.
  assert (Hsub : ∀ rt, rt ∈ before → rt ∈ resource_types c).
  { intros rt Hrt. rewrite Hty. apply elem_of_app. by left. }
  destruct (flood_types c answers get_admin_context before Hwf Hsub)
    as (c1 & Hrun1 & Hwf1 & Hty1 & Hd1 & _).
  destruct (flood_types_exact c answers get_admin_context before Hwf Hsub)
    as (c1' & Hrun1' & Hlive).
  rewrite Hrun1 in Hrun1'. injection Hrun1' as <-.
  assert (Hx : x = (Raises e, c1, [])).
  { unfold x. rewrite bulk_flood_cache_from_loop, Hty, for_each_app.
    unfold bind at 1.
    rewrite (for_each_ext before _ (λ rt,
      for_each (answers get_admin_context rt) (λ resource,
        type_cache_setitem rt (id resource) resource))).
    - rewrite Hrun1. cbn [for_each]. unfold bind, lift. by rewrite Hfail.
    - intros rt c' Hrt. rewrite Hans by done. apply pull_answers. }
  rewrite Hx. finished. by split_and!.
Qed.

Lemma bulk_load_failure_keeps_partial_witness :
  let c := __init__ ["network"; "port"; "subnet"] in
  let answers := λ (_ : Context) (rt : string), [port (rt +:+ "-1") 1 "up"] in
  let bulk_pull := λ (context : Context) (rt : string),
    if decide (rt = "port") then Raises (RuntimeError "timeout")
    else Returns (answers context rt) in
  let x := bulk_flood_cache_from bulk_pull c in
  wf c ∧ result_of x = Raises (RuntimeError "timeout") ∧
  live (state_of x) "network" !! "network-1" = Some (port "network-1" 1 "up") ∧
  live (state_of x) "subnet" = live c "subnet".
Proof.
  set (c := __init__ ["network"; "port"; "subnet"]).
  set (answers := λ (_ : Context) (rt : string), [port (rt +:+ "-1") 1 "up"]).
  set (bulk_pull := λ (context : Context) (rt : string),
    if decide (rt = "port") then @Raises (list Resource) (RuntimeError "timeout")
    else Returns (answers context rt)).
  assert (Hwf : wf c) by apply wf_init.
  assert (Hty : resource_types c = (["network"] ++ "port" :: ["subnet"])%list)
    by reflexivity.
  assert (Hans : ∀ rt, rt ∈ ["network"] →
            bulk_pull get_admin_context rt = Returns (answers get_admin_context rt)).
  { intros rt ->%list_elem_of_singleton. reflexivity. }
  assert (Hfail : bulk_pull get_admin_context "port" = Raises (RuntimeError "timeout"))
    by reflexivity.
  destruct (bulk_load_failure_keeps_partial c bulk_pull answers
              ["network"] "port" ["subnet"] _ Hwf Hty Hans Hfail)
    as (Hres & _ & _ & _ & Hlive).
  cbv zeta. split_and!; [done|done| |].
  - rewrite Hlive. vm_compute. reflexivity.
  - rewrite Hlive. vm_compute. reflexivity.
Defined.
